(** * clang-tidy-review: diff positions, added-line ranges and review comments

    A shallow embedding of [review.py]: the lookup table from source lines to
    diff positions ([make_file_line_lookup]), the added-line ranges handed to
    clang-tidy ([get_line_ranges]), the construction of a review from the
    clang-tidy output ([make_review]) and the filtering of already posted
    comments ([post_review]).

    Python values are rendered as follows.  An [int] is a [Z].  A [str] is a
    [string], each character standing for a code point below 256.  A [dict]
    that is only read by key is a [gmap]; a [dict] whose insertion order
    reaches the output is an association list.  A raised exception is the
    left injection of a sum. *)

From Stdlib Require Import ZArith Ascii List Lia Bool Sorted.
From stdpp Require Import gmap strings list.

Local Open Scope Z_scope.

(** ** Python built-ins used by the program *)

Module Py.

(** [s.startswith(p)] *)
Fixpoint startswith (p s : string) : bool :=
  match p, s with
  | EmptyString, _ => true
  | String _ _, EmptyString => false
  | String a p', String b s' => Ascii.eqb a b && startswith p' s'
  end.

(** [sub in s] for two strings *)
Fixpoint contains (sub s : string) : bool :=
  startswith sub s ||
  match s with
  | EmptyString => false
  | String _ s' => contains sub s'
  end.

(** [s.split(sep)] for a one-character separator *)
Fixpoint split_all (sep : ascii) (s : string) : list string :=
  match s with
  | EmptyString => [EmptyString]
  | String c s' =>
      if Ascii.eqb c sep then EmptyString :: split_all sep s'
      else match split_all sep s' with
           | [] => [String c EmptyString]
           | w :: ws => String c w :: ws
           end
  end.

(** [s.split(sep, maxsplit=n)] for a one-character separator: at most [n]
    cuts, the remainder of the string is the last piece. *)
Fixpoint split (sep : ascii) (maxsplit : nat) (s : string) : list string :=
  match s with
  | EmptyString => [EmptyString]
  | String c s' =>
      match maxsplit with
      | O => [s]
      | S m =>
          if Ascii.eqb c sep then EmptyString :: split sep m s'
          else match split sep maxsplit s' with
               | [] => [String c EmptyString]
               | w :: ws => String c w :: ws
               end
      end
  end.

(** [s[n:]] *)
Fixpoint drop (n : nat) (s : string) : string :=
  match n, s with
  | O, _ => s
  | S _, EmptyString => ""
  | S n', String _ s' => drop n' s'
  end.

(** [sep.join(l)] *)
Fixpoint join (sep : string) (l : list string) : string :=
  match l with
  | [] => ""
  | [x] => x
  | x :: l' => x +:+ sep +:+ join sep l'
  end.

Fixpoint replace_from (old new : string) (skip : nat) (s : string) : string :=
  match s with
  | EmptyString => ""
  | String c s' =>
      match skip with
      | S k => replace_from old new k s'
      | O =>
          if startswith old s
          then new +:+ replace_from old new (String.length old - 1) s'
          else String c (replace_from old new 0 s')
      end
  end.

Fixpoint intersperse (new s : string) : string :=
  match s with
  | EmptyString => new
  | String c s' => new +:+ String c (intersperse new s')
  end.

(** [s.replace(old, new)]: every non-overlapping occurrence, leftmost first;
    an empty [old] matches between any two characters and at both ends. *)
Definition replace (old new s : string) : string :=
  match old with
  | EmptyString => intersperse new s
  | String _ _ => replace_from old new 0 s
  end.

(** [c.isspace()] on the code points below 256 *)
Definition isspace (c : ascii) : bool :=
  let n := nat_of_ascii c in
  ((9 <=? n) && (n <=? 13) || (28 <=? n) && (n <=? 32)
   || (n =? 133) || (n =? 160))%nat.

Fixpoint lstrip (s : string) : string :=
  match s with
  | EmptyString => ""
  | String c s' => if isspace c then lstrip s' else s
  end.

Fixpoint rstrip (s : string) : string :=
  match s with
  | EmptyString => ""
  | String c s' =>
      match rstrip s' with
      | EmptyString => if isspace c then "" else String c ""
      | r => String c r
      end
  end.

(** [s.strip()] *)
Definition strip (s : string) : string := rstrip (lstrip s).

Definition digit (c : ascii) : option Z :=
  let n := nat_of_ascii c in
  if ((48 <=? n) && (n <=? 57))%nat then Some (Z.of_nat n - 48) else None.

Fixpoint digits (after_digit : bool) (acc : Z) (s : string) : option Z :=
  match s with
  | EmptyString => if after_digit then Some acc else None
  | String c s' =>
      match digit c with
      | Some d => digits true (10 * acc + d) s'
      | None =>
          if Ascii.eqb c "_" && after_digit then digits false acc s' else None
      end
  end.

(** The white space [int] accepts around a literal: the white space of C,
    and the two other spaces below 256, which the conversion turns into
    blanks.  The separators 28 to 31, which [strip] removes, are not among
    them. *)
Definition int_space (c : ascii) : bool :=
  let n := nat_of_ascii c in
  ((9 <=? n) && (n <=? 13) || (n =? 32) || (n =? 133) || (n =? 160))%nat.

Fixpoint lstrip_by (p : ascii -> bool) (s : string) : string :=
  match s with
  | EmptyString => ""
  | String c s' => if p c then lstrip_by p s' else s
  end.

Fixpoint rstrip_by (p : ascii -> bool) (s : string) : string :=
  match s with
  | EmptyString => ""
  | String c s' =>
      match rstrip_by p s' with
      | EmptyString => if p c then "" else String c ""
      | r => String c r
      end
  end.

(** The number of digit characters of a literal, underscores left out. *)
Fixpoint count_digits (s : string) : nat :=
  match s with
  | EmptyString => 0
  | String c s' =>
      match digit c with
      | Some _ => S (count_digits s')
      | None => count_digits s'
      end
  end.

(** The interpreter refuses a decimal literal of more than [max_str_digits]
    digits; literals of at most 640 digits are never refused, and a limit of
    0 switches the check off (so does an interpreter that has no such
    limit). *)
Definition over_limit (max_str_digits : nat) (literal : string) : bool :=
  let n := count_digits literal in
  ((640 <? n) && (0 <? max_str_digits) && (max_str_digits <? n))%nat.

(** [int(s)] under the interpreter's limit on digits: surrounding white
    space, an optional sign, decimal digits with single underscores between
    them; [None] stands for [ValueError]. *)
Definition int (max_str_digits : nat) (s : string) : option Z :=
  let t := rstrip_by int_space (lstrip_by int_space s) in
  let signed :=
    match t with
    | String "+" r => (false, r)
    | String "-" r => (true, r)
    | _ => (false, t)
    end in
  match digits false 0 (snd signed) with
  | Some v =>
      if over_limit max_str_digits (snd signed) then None
      else Some (if fst signed then - v else v)
  | None => None
  end.

End Py.

(** ** [textwrap.dedent] *)

Module Textwrap.

Definition blank (c : ascii) : bool := Ascii.eqb c " " || Ascii.eqb c "009".

Fixpoint all_blank (s : string) : bool :=
  match s with
  | EmptyString => true
  | String c s' => blank c && all_blank s'
  end.

(** The leading run of spaces and tabs of a line. *)
Fixpoint indent_of (s : string) : string :=
  match s with
  | EmptyString => ""
  | String c s' => if blank c then String c (indent_of s') else ""
  end.

(** [margin[:i]] for the first index [i] at which the two strings differ;
    [margin] itself when the shorter one is exhausted first. *)
Fixpoint cut_at_mismatch (margin indent : string) : string :=
  match margin, indent with
  | String x m', String y i' =>
      if Ascii.eqb x y then String x (cut_at_mismatch m' i') else ""
  | _, _ => margin
  end.

(** One turn of the loop over [indents]. *)
Definition margin_step (margin : option string) (indent : string)
  : option string :=
  match margin with
  | None => Some indent
  | Some m =>
      if Py.startswith m indent then Some m
      else if Py.startswith indent m then Some indent
      else Some (cut_at_mismatch m indent)
  end.

(** [dedent(text)].  The two regular expressions of the library work line by
    line: a line made of spaces and tabs only is emptied, every other
    non-empty line contributes its leading white space to the margin, and the
    margin is removed from the front of every line that starts with it. *)
Definition dedent (text : string) : string :=
  let lines :=
    map (fun l => if all_blank l then "" else l) (Py.split_all "010" text) in
  let indents :=
    map indent_of (List.filter (fun l => negb (String.eqb l "")) lines) in
  match fold_left margin_step indents None with
  | Some (String c m) =>
      let margin := String c m in
      Py.join (String "010" "")
        (map (fun l => if Py.startswith margin l
                       then Py.drop (String.length margin) l else l) lines)
  | _ => Py.join (String "010" "") lines
  end.

End Textwrap.

(** ** The process state and [os.path] *)

(** The ambient state of the running process: the working directory returned
    by [os.getcwd()], the environment, and the interpreter's limit on the
    digits of an integer literal ([sys.get_int_max_str_digits()]; 0 when
    there is none). *)
Record Process := {
  cwd : string;
  environ : list (string * string);
  int_max_str_digits : nat;
}.

Inductive Exception :=
| TypeError_operand                (* [int - None] *)
| ValueError_unpack (got : nat)    (* not enough values to unpack *)
| ValueError_no_path               (* [relpath]: no path specified *)
| ValueError_int (literal : string)
| KeyError_path (key : string)
| KeyError_line (key : Z).

Definition Result (A : Type) : Type := Exception + A.

Definition bind {A B} (r : Result A) (k : A -> Result B) : Result B :=
  match r with
  | inl e => inl e
  | inr a => k a
  end.

Notation "x <- r ;; k" := (bind r (fun x => k))
  (at level 100, r at next level, right associativity).

Module Posixpath.

Definition sep : string := "/".

Fixpoint endswith_sep (p : string) : bool :=
  match p with
  | EmptyString => false
  | String c EmptyString => Ascii.eqb c "/"
  | String _ p' => endswith_sep p'
  end.

Definition isabs (p : string) : bool := Py.startswith sep p.

(** One turn of the loop of [join(a, *p)]. *)
Definition join2 (path b : string) : string :=
  if Py.startswith sep b then b
  else if String.eqb path "" || endswith_sep path then path +:+ b
  else path +:+ sep +:+ b.

Definition initial_slashes (path : string) : nat :=
  if Py.startswith sep path then
    if Py.startswith "//" path && negb (Py.startswith "///" path)
    then 2%nat else 1%nat
  else 0%nat.

(** One turn of the loop of [normpath] over the components. *)
Definition norm_step (slashes : nat) (new_comps : list string) (comp : string)
  : list string :=
  if String.eqb comp "" || String.eqb comp "." then new_comps
  else if negb (String.eqb comp "..")
          || (Nat.eqb slashes 0 && Nat.eqb (length new_comps) 0)
          || String.eqb (List.last new_comps "") ".."
       then new_comps ++ [comp]
       else removelast new_comps.

Definition normpath (path : string) : string :=
  if String.eqb path "" then "." else
  let slashes := initial_slashes path in
  let comps := fold_left (norm_step slashes) (Py.split_all "/" path) [] in
  let path := Py.join "" (repeat sep slashes) +:+ Py.join sep comps in
  if String.eqb path "" then "." else path.

Definition abspath (os : Process) (path : string) : string :=
  normpath (if isabs path then path else join2 (cwd os) path).

Fixpoint commonprefix (l1 l2 : list string) : list string :=
  match l1, l2 with
  | x :: l1', y :: l2' =>
      if String.eqb x y then x :: commonprefix l1' l2' else []
  | _, _ => []
  end.

Definition nonempty (x : string) : bool := negb (String.eqb x "").

(** [os.path.relpath(path, start)] *)
Definition relpath (os : Process) (path start : string) : Result string :=
  if String.eqb path "" then inl ValueError_no_path else
  let start_list := List.filter nonempty (Py.split_all "/" (abspath os start)) in
  let path_list := List.filter nonempty (Py.split_all "/" (abspath os path)) in
  let i := length (commonprefix start_list path_list) in
  let rel_list := repeat ".." (length start_list - i) ++ skipn i path_list in
  match rel_list with
  | [] => inr "."
  | a :: p => inr (fold_left join2 p a)
  end.

End Posixpath.

(** ** The parsed diff *)

(** Modelled from the spec: the classes [PatchedFile], [Hunk] and [Line] of
    the diff parser are not part of the sources.  A line has one of three
    kinds; its number in the post-change file is [None] where the parser
    leaves it unset; [diff_line_no] counts from the top of the diff text. *)
Inductive LineType := Context | Added | Removed.

Record Line := {
  line_type : LineType;
  target_line_no : option Z;
  diff_line_no : Z;
}.

Definition is_removed (l : Line) : bool :=
  match line_type l with Removed => true | _ => false end.

Definition is_added (l : Line) : bool :=
  match line_type l with Added => true | _ => false end.

Definition Hunk : Type := list Line.

Record PatchedFile := {
  target_file : string;
  hunks : list Hunk;
}.

Definition Diff : Type := list PatchedFile.

(** [file.target_file[2:]] *)
Definition filename (file : PatchedFile) : string :=
  Py.drop 2 (target_file file).

(** ** DiffIndexer: [make_file_line_lookup] *)

Definition DIFF_HEADER_LINE_LENGTH : Z := 5.

(** The inner dictionaries are keyed by whatever [target_line_no] holds. *)
Abbreviation LineTable := (gmap (option Z) Z).
Abbreviation LineLookup := (gmap string (gmap (option Z) Z)).

(** The body of the innermost loop:
    [lookup[filename][line.target_line_no] = line.diff_line_no - 5]
    unless the line is removed. *)
Definition lookup_line (name : string) (lookup : LineLookup) (line : Line)
  : LineLookup :=
  if is_removed line then lookup
  else alter
         (insert (target_line_no line)
                 (diff_line_no line - DIFF_HEADER_LINE_LENGTH))
         name lookup.

Definition lookup_hunk (name : string) (lookup : LineLookup) (hunk : Hunk)
  : LineLookup :=
  fold_left (lookup_line name) hunk lookup.

Definition lookup_file (lookup : LineLookup) (file : PatchedFile)
  : LineLookup :=
  let name := filename file in
  fold_left (lookup_hunk name) (hunks file) (<[name := ∅]> lookup).

Definition make_file_line_lookup (diff : Diff) : LineLookup :=
  fold_left lookup_file diff ∅.

(** What the innermost loop does to the table of the file at hand. *)
Definition table_line (table : LineTable) (line : Line) : LineTable :=
  if is_removed line then table
  else <[target_line_no line := diff_line_no line - DIFF_HEADER_LINE_LENGTH]>
         table.

Definition file_table (file : PatchedFile) : LineTable :=
  fold_left table_line (concat (hunks file)) ∅.

(** *** Well-formed diffs

    The lines of a file in the order of the diff, and the invariants of the
    data model: target paths are unique, the line number is set exactly on
    the lines that are not removed, and line numbers increase along the
    file. *)
Definition lines (file : PatchedFile) : list Line := concat (hunks file).

Definition target_numbers (file : PatchedFile) : list Z :=
  omap target_line_no (lines file).

Record valid_file (file : PatchedFile) : Prop := {
  numbered :
    forall line, In line (lines file) ->
      (target_line_no line = None <-> is_removed line = true);
  increasing : StronglySorted Z.lt (target_numbers file);
}.

Record valid_diff (diff : Diff) : Prop := {
  unique_paths : NoDup (map filename diff);
  valid_files : forall file, In file diff -> valid_file file;
}.

(** ** RangeExtractor: [get_line_ranges] *)

Fixpoint mapM {A B} (f : A -> Result B) (l : list A) : Result (list B) :=
  match l with
  | [] => inr []
  | x :: l' => y <- f x ;; ys <- mapM f l' ;; inr (y :: ys)
  end.

(** [enumerate(l)] *)
Fixpoint enumerate_from {A} (i : Z) (l : list A) : list (Z * A) :=
  match l with
  | [] => []
  | x :: l' => (i, x) :: enumerate_from (i + 1) l'
  end.

Definition enumerate {A} (l : list A) : list (Z * A) := enumerate_from 0 l.

(** [itertools.groupby(l, key)]: a new group starts whenever the key
    changes; [group] holds the current group in reverse. *)
Fixpoint groupby_from {A} (key : A -> Z) (k : Z) (group : list A) (l : list A)
  : list (Z * list A) :=
  match l with
  | [] => [(k, rev group)]
  | x :: l' =>
      if key x =? k then groupby_from key k (x :: group) l'
      else (k, rev group) :: groupby_from key (key x) [x] l'
  end.

Definition groupby {A} (key : A -> Z) (l : list A) : list (Z * list A) :=
  match l with
  | [] => []
  | x :: l' => groupby_from key (key x) [x] l'
  end.

(** The list built by the two inner loops: the [target_line_no] of every
    added line. *)
Definition added_lines (file : PatchedFile) : list (option Z) :=
  map target_line_no (List.filter is_added (lines file)).

(** The key [ix[0] - ix[1]] is an integer subtraction: it raises on a line
    number that is [None].  No effect of the loop is visible once the
    exception leaves the function, so the operands are checked up front. *)
Definition operand (n : option Z) : Result Z :=
  match n with
  | Some v => inr v
  | None => inl TypeError_operand
  end.

(** [[groups[0], groups[-1]]] *)
Definition first_last (groups : list Z) : option (Z * Z) :=
  match groups with
  | [] => None
  | x :: _ => Some (x, List.last groups x)
  end.

(** The ranges appended for one file, in order. *)
Definition file_ranges (file : PatchedFile) : Result (list (Z * Z)) :=
  added <- mapM operand (added_lines file) ;;
  inr (omap (fun g => first_last (map snd (snd g)))
            (groupby (fun ix : Z * Z => fst ix - snd ix) (enumerate added))).

(** [lines_by_file], a dictionary in insertion order. *)
Abbreviation RangeDict := (list (string * list (Z * Z))).

(** [d.setdefault(name, []).append(r)] *)
Fixpoint setdefault_append (d : RangeDict) (name : string) (r : Z * Z)
  : RangeDict :=
  match d with
  | [] => [(name, [r])]
  | (k, v) :: d' =>
      if String.eqb k name then (k, v ++ [r]) :: d'
      else (k, v) :: setdefault_append d' name r
  end.

Fixpoint lines_by_file (diff : Diff) (d : RangeDict) : Result RangeDict :=
  match diff with
  | [] => inr d
  | file :: diff' =>
      rs <- file_ranges file ;;
      lines_by_file diff'
        (fold_left (fun d r => setdefault_append d (filename file) r) rs d)
  end.

(** One record of the line filter, [{"name": name, "lines": lines}]. *)
Record LineFilter := {
  name : string;
  ranges : list (Z * Z);
}.

(** [get_line_ranges(diff)], up to the textual encoding of the records
    ([str] and [json.dumps]), which is not modelled. *)
Definition get_line_ranges (diff : Diff) : Result (list LineFilter) :=
  d <- lines_by_file diff [] ;;
  inr (map (fun kv => {| name := fst kv; ranges := snd kv |}) d).

(** The added line numbers of a file, as integers. *)
Definition added_numbers (file : PatchedFile) : list Z :=
  omap target_line_no (List.filter is_added (lines file)).

(** Consecutive ranges leave a gap of at least one line, and no range is
    empty: the ranges are ascending, disjoint and cannot be merged. *)
Definition separated (rs : list (Z * Z)) : Prop :=
  Forall (fun r => fst r <= snd r) rs /\
  StronglySorted (fun r1 r2 => snd r1 + 1 < fst r2) rs.

(** The runs of consecutive integers of a list, read off directly: [s] and
    [e] are the ends of the run being extended. *)
Fixpoint runs_from (s e : Z) (l : list Z) : list (Z * Z) :=
  match l with
  | [] => [(s, e)]
  | x :: l' =>
      if x =? e + 1 then runs_from s x l' else (s, e) :: runs_from x x l'
  end.

Definition runs (l : list Z) : list (Z * Z) :=
  match l with
  | [] => []
  | x :: l' => runs_from x x l'
  end.

(** The dictionary a diff with unique paths leaves behind: one entry per
    file with added lines, in the order of the diff. *)
Definition entries (diff : Diff) : RangeDict :=
  omap (fun file => match runs (added_numbers file) with
                    | [] => None
                    | rs => Some (filename file, rs)
                    end) diff.

(** ** WarningReviewBuilder: [make_review] *)

Record ReviewComment := {
  path : string;
  body : string;
  position : Z;
}.

Record Review := {
  review_body : string;
  event : string;
  comments : list ReviewComment;
}.

Definition nl : string := String "010" "".

(** The inner loop over [contents[num + 1:]]. *)
Fixpoint collect_body (full_path rel_path : string) (rest : list string)
  (body : string) : string :=
  match rest with
  | [] => body
  | line2 :: rest' =>
      if Py.contains "warning" line2 then body
      else collect_body full_path rel_path rest'
             (body +:+ (nl +:+ Py.replace full_path rel_path line2))
  end.

(** The f-string of the comment body. *)
Definition comment_body (warning body : string) : string :=
  Py.replace "'" "`" (Py.strip warning) +:+ nl +:+ nl +:+
  "```cpp" +:+ nl +:+
  Py.strip (Textwrap.dedent body) +:+ nl +:+
  "```" +:+ nl.

Definition getitem_path (lookup : LineLookup) (key : string)
  : Result LineTable :=
  match lookup !! key with
  | Some t => inr t
  | None => inl (KeyError_path key)
  end.

Definition getitem_line (table : LineTable) (key : Z) : Result Z :=
  match table !! Some key with
  | Some p => inr p
  | None => inl (KeyError_line key)
  end.

Definition to_int (os : Process) (s : string) : Result Z :=
  match Py.int (int_max_str_digits os) s with
  | Some n => inr n
  | None => inl (ValueError_int s)
  end.

(** One turn of the outer loop: [line] is [contents[num]], [rest] is
    [contents[num + 1:]], [acc] is the list [comments] so far. *)
Definition review_line (os : Process) (root : string) (lookup : LineLookup)
  (line : string) (rest : list string) (acc : list ReviewComment)
  : Result (list ReviewComment) :=
  if Py.contains "warning" line then
    if Py.startswith "warning" line then inr acc
    else
      match Py.split ":" 3 line with
      | [full_path; source_line; _; warning] =>
          rel_path <- Posixpath.relpath os full_path root ;;
          let body := collect_body full_path rel_path rest "" in
          let text := comment_body warning body in
          table <- getitem_path lookup rel_path ;;
          n <- to_int os source_line ;;
          pos <- getitem_line table n ;;
          inr (acc ++ [{| path := rel_path; body := text; position := pos |}])
      | pieces => inl (ValueError_unpack (length pieces))
      end
  else inr acc.

Fixpoint review_loop (os : Process) (root : string) (lookup : LineLookup)
  (contents : list string) (acc : list ReviewComment)
  : Result (list ReviewComment) :=
  match contents with
  | [] => inr acc
  | line :: rest =>
      acc' <- review_line os root lookup line rest acc ;;
      review_loop os root lookup rest acc'
  end.

Definition make_review (contents : list string) (lookup : LineLookup)
  (os : Process) : Result Review :=
  let root := cwd os in
  comments <- review_loop os root lookup contents [] ;;
  inr {| review_body := "clang-tidy made some suggestions";
         event := "COMMENT";
         comments := comments |}.

(** The review that carries a given list of comments. *)
Definition review_with (cs : list ReviewComment) : Review :=
  {| review_body := "clang-tidy made some suggestions";
     event := "COMMENT";
     comments := cs |}.

(** A comment whose position was read from the lookup table under its path
    and some source line. *)
Definition resolvable (lookup : LineLookup) (c : ReviewComment) : Prop :=
  exists table n,
    lookup !! path c = Some table /\ table !! Some n = Some (position c).

(** ** Deduplication: [post_review] *)

(** Modelled from the spec: a comment already posted on the pull request, as
    the hosting API returns it, with the three attributes the filter reads. *)
Record PullRequestComment := {
  posted_path : string;
  posted_position : Z;
  posted_body : string;
}.

Record PullRequest := {
  get_review_comments : list PullRequestComment;
}.

(** The condition negated by the [lambda] of the filter. *)
Definition same_comment (review_comment : ReviewComment)
  (comment : PullRequestComment) : bool :=
  String.eqb (path review_comment) (posted_path comment)
  && (position review_comment =? posted_position comment)
  && String.eqb (body review_comment) (posted_body comment).

(** One turn of the loop over the posted comments. *)
Definition drop_posted (review : Review) (comment : PullRequestComment)
  : Review :=
  {| review_body := review_body review;
     event := event review;
     comments :=
       List.filter (fun rc => negb (same_comment rc comment))
                   (comments review) |}.

Definition filter_review (posted : list PullRequestComment) (review : Review)
  : Review :=
  fold_left drop_posted posted review.

(** What [post_review] does besides returning: the output variable, the
    messages and the call of [create_review]. *)
Inductive Action :=
| SetOutput (total_comments : nat)
| PrintMessage (message : string)
| PrintReview (review : Review)
| CreateReview (review : Review).

(** [post_review] returns its actions and the review as it leaves it. *)
Definition post_review (pull_request : PullRequest) (review : Review)
  : list Action * Review :=
  let review := filter_review (get_review_comments pull_request) review in
  let out := [SetOutput (length (comments review))] in
  match comments review with
  | [] => (out ++ [PrintMessage "Everything already posted!"], review)
  | _ :: _ => (out ++ [PrintReview review; CreateReview review], review)
  end.

Definition posts_review (actions : list Action) : bool :=
  existsb (fun a => match a with CreateReview _ => true | _ => false end)
          actions.

(** Modelled from the spec: the hosting side keeps every comment of a
    submitted review with its path, position and body. *)
Definition as_posted (c : ReviewComment) : PullRequestComment :=
  {| posted_path := path c;
     posted_position := position c;
     posted_body := body c |}.

Definition perform (pull_request : PullRequest) (a : Action) : PullRequest :=
  match a with
  | CreateReview review =>
      {| get_review_comments :=
           get_review_comments pull_request
           ++ map as_posted (comments review) |}
  | _ => pull_request
  end.

(** The key of the deduplication. *)
Definition triple (c : ReviewComment) : string * Z * string :=
  (path c, position c, body c).

Definition posted_triple (p : PullRequestComment) : string * Z * string :=
  (posted_path p, posted_position p, posted_body p).


(** ** Sample data

    A diff of two files.  Each file's diff has a four-line header and its
    first hunk header on line 5, so the first hunk line is line 6 of the
    diff and has position 1. *)
Definition line_at (t : LineType) (target : option Z) (at_diff : Z) : Line :=
  {| line_type := t; target_line_no := target; diff_line_no := at_diff |}.

Definition foo_hunk1 : Hunk :=
  [line_at Context (Some 9) 6; line_at Added (Some 10) 7;
   line_at Added (Some 11) 8; line_at Added (Some 12) 9;
   line_at Removed None 10; line_at Context (Some 13) 11].

Definition foo_hunk2 : Hunk :=
  [line_at Context (Some 14) 13; line_at Added (Some 15) 14;
   line_at Added (Some 16) 15; line_at Context (Some 17) 16].

Definition foo_hunk3 : Hunk :=
  [line_at Context (Some 19) 18; line_at Added (Some 20) 19;
   line_at Context (Some 21) 20].

Definition foo_cpp : PatchedFile :=
  {| target_file := "b/foo.cpp"; hunks := [foo_hunk1; foo_hunk2; foo_hunk3] |}.

Definition bar_h : PatchedFile :=
  {| target_file := "b/bar.h";
     hunks := [[line_at Context (Some 1) 6; line_at Removed None 7;
                line_at Context (Some 2) 8]] |}.

Definition sample_diff : Diff := [foo_cpp; bar_h].

Definition sample_os : Process :=
  {| cwd := "/abs/path"; environ := []; int_max_str_digits := 4300 |}.

Definition sample_lookup : LineLookup :=
  {[ "foo.cpp" := {[ Some 42 := 7; Some 50 := 9 ]} ]}.

Definition sample_record : string :=
  "/abs/path/foo.cpp:42:7: warning: unused variable 'x'".

Definition sample_comment : ReviewComment :=
  {| path := "foo.cpp";
     body := "warning: unused variable `x`" +:+ nl +:+ nl +:+
             "```cpp" +:+ nl +:+
             "int x = 0;" +:+ nl +:+
             "    ^" +:+ nl +:+
             "```" +:+ nl;
     position := 7 |}.

(** ** The rest of the program *)

(** A line of the stream that [make_review] treats as a record: it carries
    the marker and does not start with it. *)
Definition is_record (line : string) : bool :=
  Py.contains "warning" line && negb (Py.startswith "warning" line).

(** No separator in a piece. *)
Fixpoint free_of (sep : ascii) (s : string) : bool :=
  match s with
  | EmptyString => true
  | String c s' => negb (Ascii.eqb c sep) && free_of sep s'
  end.

(** A comment placed on a context or added line of a file of the diff. *)
Definition anchored (diff : Diff) (c : ReviewComment) : Prop :=
  exists file line n,
    In file diff /\ In line (lines file) /\ is_removed line = false /\
    filename file = path c /\ target_line_no line = Some n /\
    position c = diff_line_no line - DIFF_HEADER_LINE_LENGTH.

(** A range of some record of the line filter under [nm] holds [n]. *)
Definition in_filter (out : list LineFilter) (nm : string) (n : Z) : Prop :=
  exists e r, In e out /\ name e = nm /\ In r (ranges e)
              /\ fst r <= n <= snd r.

Definition covered (d : RangeDict) (nm : string) (n : Z) : Prop :=
  exists v r, In (nm, v) d /\ In r v /\ fst r <= n <= snd r.

(** *** [post_lgtm_comment] *)

Definition BODY : string :=
  "clang-tidy review says " +:+ String "034" "All clean, LGTM! :+1:"
  +:+ String "034" "".

(** Modelled from the spec: a comment of the pull request's conversation, as
    the hosting API returns it, with the attribute the scan reads. *)
Record IssueComment := {
  issue_body : string;
}.

(** The two sides of a pull request that the program reads and writes. *)
Record Remote := {
  review_side : PullRequest;
  get_issue_comments : list IssueComment;
}.

Inductive IssueAction :=
| PrintAlreadyPosted
| CreateIssueComment (body : string).

(** The loop over the issue comments, with the early [return]. *)
Fixpoint scan_issue_comments (comments : list IssueComment)
  : list IssueAction :=
  match comments with
  | [] => [CreateIssueComment BODY]
  | comment :: rest =>
      if String.eqb (issue_body comment) BODY then [PrintAlreadyPosted]
      else scan_issue_comments rest
  end.

Definition post_lgtm_comment (pull_request : Remote) : list IssueAction :=
  scan_issue_comments (get_issue_comments pull_request).

(** Modelled from the spec: the hosting side appends a created issue
    comment to the conversation. *)
Definition perform_issue (pull_request : Remote) (a : IssueAction) : Remote :=
  match a with
  | CreateIssueComment b =>
      {| review_side := review_side pull_request;
         get_issue_comments :=
           get_issue_comments pull_request ++ [{| issue_body := b |}] |}
  | PrintAlreadyPosted => pull_request
  end.

(** *** The files handed to clang-tidy, and [main] *)

Inductive MainError :=
| CoreError (e : Exception)
| CalledProcessError.

(** The three ways [main] ends without an exception. *)
Inductive Outcome :=
| NoFiles
| AllClean (actions : list IssueAction)
| Reviewed (actions : list Action) (review : Review).

Section Main.

(** [fnmatch.fnmatch(name, pattern)] of the standard library, and the run of
    clang-tidy on a line filter and a list of files: its output lines, or
    [None] when the process fails.  The oracle receives the line filter
    before its textual encoding. *)
Variable fnmatch : string -> string -> bool.
Variable clang_tidy : list LineFilter -> string -> option (list string).

(** [fnmatch.filter(names, pattern)] *)
Definition fnmatch_filter (names : list string) (pattern : string)
  : list string :=
  List.filter (fun n => fnmatch n pattern) names.

(** The loop over [include]: [files.extend(...)]. *)
Definition include_files (include changed_files : list string)
  : list string :=
  fold_left (fun files pattern => files ++ fnmatch_filter changed_files pattern)
            include [].

(** The loop over [exclude]. *)
Definition exclude_files (exclude files : list string) : list string :=
  fold_left
    (fun files pattern => List.filter (fun f => negb (fnmatch f pattern)) files)
    exclude files.

Definition select_files (include : list string) (exclude : option (list string))
  (changed_files : list string) : list string :=
  exclude_files (match exclude with None => [] | Some e => e end)
                (include_files include changed_files).

(** Some exclude pattern matches the file. *)
Definition excluded_by (exclude : option (list string)) (f : string) : bool :=
  existsb (fnmatch f) (match exclude with None => [] | Some e => e end).

(** [main], from the parsed diff on: the download of the diff and the
    connection to the hosting side are left to the caller. *)
Definition main (diff : Diff) (include : list string)
  (exclude : option (list string)) (os : Process) (pull_request : Remote)
  : MainError + Outcome :=
  match get_line_ranges diff with
  | inl e => inl (CoreError e)
  | inr line_ranges =>
      let changed_files := map filename diff in
      match select_files include exclude changed_files with
      | [] => inr NoFiles
      | files =>
          match clang_tidy line_ranges (Py.join " " files) with
          | None => inl CalledProcessError
          | Some clang_tidy_warnings =>
              let lookup := make_file_line_lookup diff in
              match make_review clang_tidy_warnings lookup os with
              | inl e => inl (CoreError e)
              | inr review =>
                  match comments review with
                  | [] => inr (AllClean (post_lgtm_comment pull_request))
                  | _ :: _ =>
                      let posted :=
                        post_review (review_side pull_request) review in
                      inr (Reviewed (fst posted) (snd posted))
                  end
              end
          end
      end
  end.

End Main.

(** *** The base directory of [compile_commands.json] *)

(** [s[:n]] for [0 <= n] *)
Fixpoint take (n : nat) (s : string) : string :=
  match n, s with
  | O, _ => ""
  | S _, EmptyString => ""
  | S n', String c s' => String c (take n' s')
  end.

(** [s[:-k]] for [k >= 1]: all but the last [k] characters, nothing when
    the string is shorter. *)
Definition drop_last (k : nat) (s : string) : string :=
  take (String.length s - k) s.

(** [s.endswith(suffix)] *)
Definition endswith (suffix s : string) : bool :=
  (String.length suffix <=? String.length s)%nat
  && String.eqb (Py.drop (String.length s - String.length suffix) s) suffix.

Inductive SetupError :=
| RuntimeError_paths (original_directory : string).

(** The computation of [basedir] from the directory recorded in the
    compilation database and the build directory given on the command
    line. *)
Definition basedir (original_directory build_dir : string)
  : SetupError + string :=
  if endswith build_dir original_directory then
    inr (drop_last (String.length build_dir + 1) original_directory)
  else if String.eqb build_dir "." then
    inr (drop_last 1 original_directory)
  else inl (RuntimeError_paths original_directory).

(** The dictionary keeps its keys distinct and its lists non-empty. *)
Definition tidy (d : RangeDict) : Prop :=
  List.NoDup (map fst d) /\ Forall (fun kv => snd kv <> []) d.

(** A path component that [normpath] leaves alone. *)
Definition plain (comp : string) : bool :=
  free_of "/" comp && negb (String.eqb comp "")
  && negb (String.eqb comp ".") && negb (String.eqb comp "..").

(** *** Samples for the rest of the program

    A matcher that accepts the pattern made of one star and the name itself,
    a run of clang-tidy that reports one warning on line 15 of foo.cpp, and a
    pull request without comments. *)
Definition sample_fnmatch (f pattern : string) : bool :=
  String.eqb pattern "*" || String.eqb f pattern.

Definition sample_clang_tidy (line_ranges : list LineFilter) (files : string)
  : option (list string) :=
  Some ["/abs/path/foo.cpp:15:3: warning: unused variable 'y'"].

Definition quiet_clang_tidy (line_ranges : list LineFilter) (files : string)
  : option (list string) :=
  Some ["/abs/path/foo.cpp:15:3: error: no such variable"].

Definition sample_remote : Remote :=
  {| review_side := {| get_review_comments := [] |};
     get_issue_comments := [] |}.

Definition sample_submitted : Review :=
  review_with
    [{| path := "foo.cpp";
        body := "warning: unused variable `y`" +:+ nl +:+ nl +:+
                "```cpp" +:+ nl +:+ nl +:+ "```" +:+ nl;
        position := 9 |}].

(** *** Shapes of context lines, bodies and views of the inputs *)

(** Nothing but white space, in the sense of [strip]. *)
Fixpoint all_space (s : string) : bool :=
  match s with
  | EmptyString => true
  | String c s' => Py.isspace c && all_space s'
  end.

(** The first, respectively the last, character is no white space. *)
Definition starts_solid (s : string) : bool :=
  match s with
  | EmptyString => false
  | String a _ => negb (Py.isspace a)
  end.

Fixpoint ends_solid (s : string) : bool :=
  match s with
  | EmptyString => false
  | String a EmptyString => negb (Py.isspace a)
  | String _ s' => ends_solid s'
  end.

(** Two indentations that share no first character. *)
Definition heads_differ (e1 e2 : string) : bool :=
  match e1, e2 with
  | String a _, String b _ => negb (Ascii.eqb a b)
  | _, _ => true
  end.

(** The lines that make the body of a record: those that follow it up to
    the next line with the marker. *)
Fixpoint body_lines (rest : list string) : list string :=
  match rest with
  | [] => []
  | l :: rest' =>
      if Py.contains "warning" l then [] else l :: body_lines rest'
  end.





(** A string of [n] copies of a character. *)
Fixpoint copies (n : nat) (c : ascii) : string :=
  match n with
  | O => ""
  | S n' => String c (copies n' c)
  end.

(** * Verification *)


(** ** The lookup table *)

Section LookupTable.

Implicit Types (lookup : LineLookup) (table : LineTable) (ls : list Line).

Lemma lookup_hunks_concat name (hs : list Hunk) lookup :
  fold_left (lookup_hunk name) hs lookup
  = fold_left (lookup_line name) (concat hs) lookup.
Proof.
  revert lookup. induction hs as [|h hs IH]; intros lookup; simpl; [done|].
  rewrite fold_left_app. apply IH.
Qed.

Lemma lookup_lines_table name ls lookup table :
  lookup !! name = Some table ->
  fold_left (lookup_line name) ls lookup
  = <[name := fold_left table_line ls table]> lookup.
Proof.
  revert lookup table. induction ls as [|l ls IH]; intros lookup table Hn; simpl.
  - by rewrite insert_id.
  - unfold lookup_line at 2, table_line at 2. destruct (is_removed l).
    + by apply IH.
    + erewrite IH.
      * apply map_eq. intros k. destruct (decide (name = k)) as [->|Hk].
        -- by rewrite !lookup_insert_eq.
        -- rewrite !lookup_insert_ne by done. by rewrite lookup_alter_ne.
      * rewrite lookup_alter_eq, Hn. done.
Qed.

Lemma lookup_file_table lookup file :
  lookup_file lookup file = <[filename file := file_table file]> lookup.
Proof.
  unfold lookup_file, file_table. rewrite lookup_hunks_concat.
  erewrite lookup_lines_table by apply lookup_insert_eq.
  by rewrite insert_insert_eq.
Qed.

Lemma lookup_other_files (diff : Diff) lookup name :
  ~ In name (map filename diff) ->
  fold_left lookup_file diff lookup !! name = lookup !! name.
Proof.
  revert lookup. induction diff as [|f diff IH]; intros lookup Hn; simpl; [done|].
  simpl in Hn. rewrite IH by tauto.
  rewrite lookup_file_table, lookup_insert_ne; [done | tauto].
Qed.

Lemma lookup_of_file (diff : Diff) lookup file :
  NoDup (map filename diff) -> In file diff ->
  fold_left lookup_file diff lookup !! filename file = Some (file_table file).
Proof.
  revert lookup. induction diff as [|f diff IH]; intros lookup Hnd Hin; [done|].
  simpl in *. apply NoDup_cons in Hnd as [Hf Hnd]. destruct Hin as [->|Hin].
  - rewrite lookup_other_files.
    + by rewrite lookup_file_table, lookup_insert_eq.
    + intros H. apply Hf. by apply list_elem_of_In.
  - by apply IH.
Qed.

(** A key that no kept line carries is left alone. *)
Lemma table_untouched ls table k :
  (forall l, In l ls -> is_removed l = false -> target_line_no l <> k) ->
  fold_left table_line ls table !! k = table !! k.
Proof.
  revert table. induction ls as [|l ls IH]; intros table H; simpl; [done|].
  rewrite IH by (intros; apply H; simpl; auto).
  unfold table_line. destruct (is_removed l) eqn:E; [done|].
  rewrite lookup_insert_ne; [done|]. apply H; simpl; auto.
Qed.

(** Every entry of the table was there before or comes from a kept line. *)
Lemma table_sound ls table k v :
  fold_left table_line ls table !! k = Some v ->
  table !! k = Some v \/
  exists l, In l ls /\ is_removed l = false /\ target_line_no l = k
            /\ v = diff_line_no l - DIFF_HEADER_LINE_LENGTH.
Proof.
  revert table. induction ls as [|l ls IH]; intros table H; simpl in *; [auto|].
  apply IH in H as [H|(l' & ? & ? & ? & ?)]; [|right; exists l'; auto].
  unfold table_line in H. destruct (is_removed l) eqn:E; [auto|].
  destruct (decide (target_line_no l = k)) as [<-|Hk].
  - rewrite lookup_insert_eq in H. right. exists l. naive_solver.
  - rewrite lookup_insert_ne in H by done. auto.
Qed.

Lemma sorted_omap_tail (l : Line) ls :
  StronglySorted Z.lt (omap target_line_no (l :: ls)) ->
  StronglySorted Z.lt (omap target_line_no ls).
Proof.
  simpl. destruct (target_line_no l); [|done].
  intros H. by apply StronglySorted_inv in H as [? _].
Qed.

Lemma table_complete ls table l :
  StronglySorted Z.lt (omap target_line_no ls) ->
  (forall l', In l' ls -> is_removed l' = false -> target_line_no l' <> None) ->
  In l ls -> is_removed l = false ->
  fold_left table_line ls table !! target_line_no l
  = Some (diff_line_no l - DIFF_HEADER_LINE_LENGTH).
Proof.
  revert table. induction ls as [|l0 ls IH]; intros table Hs Hnum Hin Hk; [done|].
  destruct Hin as [->|Hin].
  - simpl. rewrite table_untouched.
    + unfold table_line. rewrite Hk. apply lookup_insert_eq.
    + intros l' Hl' Hk' Heq. simpl in Hs.
      destruct (target_line_no l) as [n|] eqn:En;
        [|by apply (Hnum l); simpl; auto].
      apply StronglySorted_inv in Hs as [_ Hall].
      rewrite Forall_forall in Hall.
      assert (n < n); [|lia]. apply Hall.
      apply list_elem_of_omap. exists l'.
      by rewrite list_elem_of_In.
  - simpl. apply IH; eauto using sorted_omap_tail.
    intros; apply Hnum; simpl; auto.
Qed.

End LookupTable.

(** C1.  In the table built by [make_file_line_lookup] from a well-formed
    diff, every context or added line of every hunk of every file is found
    under the file's path and the line's number in the new file, and maps to
    the line's number in the diff minus the header offset, which is 5; under
    the key of a removed line there is no entry, and every entry of the
    file's table comes from one of its context or added lines. *)
Theorem lookup_completeness (diff : Diff) (file : PatchedFile) (hunk : Hunk)
  (line : Line) :
  valid_diff diff ->
  In file diff -> In hunk (hunks file) -> In line hunk ->
  let entry :=
    make_file_line_lookup diff !! filename file
      ≫= (fun table => table !! target_line_no line) in
  DIFF_HEADER_LINE_LENGTH = 5 /\
  (line_type line = Context \/ line_type line = Added ->
   entry = Some (diff_line_no line - 5)) /\
  (line_type line = Removed -> entry = None) /\
  (forall key pos,
     make_file_line_lookup diff !! filename file
       ≫= (fun table => table !! key) = Some pos ->
     exists kept, In kept (lines file) /\ is_removed kept = false
                  /\ target_line_no kept = key
                  /\ pos = diff_line_no kept - 5).
Proof.
  intros [Hnd Hfiles] Hfile Hhunk Hline entry.
  destruct (Hfiles file Hfile) as [Hnum Hinc].
  assert (Hin : In line (lines file)).
  { unfold lines. apply in_concat. eauto. }
  assert (Hkept : forall l, In l (lines file) -> is_removed l = false ->
                            target_line_no l <> None).
  { intros l Hl Hk E. apply Hnum in E; [congruence | done]. }
  subst entry. unfold make_file_line_lookup.
  rewrite lookup_of_file by done. simpl.
  split; [done|]. split; [|split].
  - intros Hty.
    assert (is_removed line = false) as Hk
      by (unfold is_removed; destruct Hty as [-> | ->]; done).
    unfold file_table. fold (lines file).
    by rewrite (table_complete _ _ line).
  - intros Hty.
    assert (target_line_no line = None) as ->.
    { apply Hnum; [done|]. unfold is_removed. by rewrite Hty. }
    unfold file_table. fold (lines file).
    rewrite table_untouched; [done | auto].
  - intros key pos Hentry. unfold file_table in Hentry.
    by apply table_sound in Hentry as [?|?].
Qed.

(** ** Ranges of added lines *)

Section Ranges.

Lemma first_last_snoc (g : list Z) (x : Z) :
  first_last (g ++ [x]) = Some (hd x g, x).
Proof.
  destruct g as [|y g]; [done|].
  change (first_last ((y :: g) ++ [x]))
    with (Some (y, List.last ((y :: g) ++ [x]) y)).
  by rewrite last_last.
Qed.

(** [groupby] never yields an empty group, so [groups[0]] and [groups[-1]]
    are always defined. *)
Lemma groupby_from_nonempty {A} (key : A -> Z) k (group l : list A) :
  group <> [] ->
  Forall (fun g => snd g <> []) (groupby_from key k group l).
Proof.
  revert k group. induction l as [|x l IH]; intros k group Hg; simpl.
  - constructor; [|constructor]. simpl. intros H. apply Hg.
    apply (f_equal (@rev A)) in H. by rewrite rev_involutive in H.
  - destruct (key x =? k).
    + by apply IH.
    + constructor; [|by apply IH]. simpl. intros H. apply Hg.
      apply (f_equal (@rev A)) in H. by rewrite rev_involutive in H.
Qed.

(** The groups of [enumerate] under the key [index - value] are the runs of
    consecutive integers. *)
Lemma groupby_from_runs (l : list Z) (i s e : Z) (group : list (Z * Z)) :
  first_last (map snd (rev group)) = Some (s, e) ->
  omap (fun g => first_last (map snd (snd g)))
       (groupby_from (fun ix => fst ix - snd ix) (i - 1 - e) group
                     (enumerate_from i l))
  = runs_from s e l.
Proof.
  revert i s e group. induction l as [|x l IH]; intros i s e group Hg; simpl.
  - by rewrite Hg.
  - destruct (Z.eqb_spec (i - x) (i - 1 - e)) as [E|E];
      destruct (Z.eqb_spec x (e + 1)) as [E'|E']; try lia.
    + replace (i - 1 - e) with (i + 1 - 1 - x) by lia. apply IH.
      simpl. rewrite map_app. simpl. rewrite first_last_snoc.
      destruct (map snd (rev group)) as [|y g]; [done|].
      simpl in *. congruence.
    + simpl. rewrite Hg. f_equal.
      replace (i - x) with (i + 1 - 1 - x) by lia. by apply IH.
Qed.

Lemma groupby_runs (l : list Z) :
  omap (fun g => first_last (map snd (snd g)))
       (groupby (fun ix : Z * Z => fst ix - snd ix) (enumerate l))
  = runs l.
Proof.
  destruct l as [|x l]; [done|]. unfold enumerate, groupby, runs. simpl.
  replace (0 - x) with (0 + 1 - 1 - x) by lia. by apply groupby_from_runs.
Qed.

(** The ranges cover the run being extended and the rest of the list, and
    nothing else; this needs no order on the list. *)
Lemma runs_from_cover (l : list Z) (s e n : Z) :
  s <= e ->
  (exists r, In r (runs_from s e l) /\ fst r <= n <= snd r)
  <-> (s <= n <= e \/ In n l).
Proof.
  revert s e. induction l as [|x l IH]; intros s e Hse; simpl.
  - split.
    + intros (r & [<-|[]] & Hr). auto.
    + intros [H|[]]. exists (s, e). auto.
  - destruct (Z.eqb_spec x (e + 1)) as [->|E].
    + rewrite IH by lia. split.
      * intros [H|H]; [|auto].
        destruct (decide (n = e + 1)); [auto | left; lia].
      * intros [H|[<-|H]]; [left; lia | left; lia | auto].
    + split.
      * intros (r & [<-|Hr] & Hn); [auto|].
        assert (x <= n <= x \/ In n l) as [?|?]
            by (apply IH; [lia | eauto]); [right; left; lia | auto].
      * intros [H|[<-|H]].
        -- exists (s, e). simpl. auto.
        -- assert (exists r, In r (runs_from x x l) /\ fst r <= x <= snd r)
             as (r & ? & ?) by (apply IH; lia). exists r. simpl. auto.
        -- assert (exists r, In r (runs_from x x l) /\ fst r <= n <= snd r)
             as (r & ? & ?) by (apply IH; [lia | auto]). exists r. simpl. auto.
Qed.

Lemma runs_cover (l : list Z) (n : Z) :
  In n l <-> exists r, In r (runs l) /\ fst r <= n <= snd r.
Proof.
  destruct l as [|x l]; simpl.
  - split; [done | by intros (? & [] & _)].
  - rewrite runs_from_cover by lia. split; [intros [->|?]; [left; lia | auto]|].
    intros [?|?]; [left; lia | auto].
Qed.

(** On an increasing list no range starts before the current run. *)
Lemma runs_from_lower (l : list Z) (s e : Z) (r : Z * Z) :
  StronglySorted Z.lt (e :: l) -> s <= e ->
  In r (runs_from s e l) -> s <= fst r /\ fst r <= snd r.
Proof.
  revert s e. induction l as [|x l IH]; intros s e Hs Hse; simpl.
  - intros [<-|[]]. simpl. lia.
  - apply StronglySorted_inv in Hs as [Hs He].
    apply Forall_cons in He as [Hex _].
    destruct (Z.eqb_spec x (e + 1)) as [->|E].
    + intros Hr. apply (IH s (e + 1)); [done | lia | done].
    + intros [<-|Hr]; [simpl; lia|].
      apply (IH x x) in Hr; [lia | done | lia].
Qed.

Lemma runs_from_separated (l : list Z) (s e : Z) :
  StronglySorted Z.lt (e :: l) -> s <= e -> separated (runs_from s e l).
Proof.
  revert s e. induction l as [|x l IH]; intros s e Hs Hse; simpl.
  - split; repeat constructor. done.
  - pose proof Hs as Hs'.
    apply StronglySorted_inv in Hs as [Hs He].
    apply Forall_cons in He as [Hex _].
    destruct (Z.eqb_spec x (e + 1)) as [->|E].
    + apply IH; [done | lia].
    + destruct (IH x x) as [Hle Hgap]; [done | lia |].
      split; constructor; try done.
      apply Forall_forall. intros r Hr. simpl.
      apply list_elem_of_In, (runs_from_lower l x x) in Hr; [lia | done | lia].
Qed.

Lemma runs_separated (l : list Z) :
  StronglySorted Z.lt l -> separated (runs l).
Proof.
  destruct l as [|x l]; simpl.
  - split; constructor.
  - intros. apply runs_from_separated; [done | lia].
Qed.

End Ranges.

Section LineFilter.

Implicit Types (d : RangeDict) (diff : Diff).

Lemma setdefault_append_fresh d k r :
  ~ In k (map fst d) -> setdefault_append d k r = d ++ [(k, [r])].
Proof.
  induction d as [|[k' v] d IH]; simpl; intros H; [done|].
  destruct (String.eqb_spec k' k) as [->|E]; [tauto|].
  rewrite IH; [done | tauto].
Qed.

Lemma setdefault_append_last d k v r :
  ~ In k (map fst d) ->
  setdefault_append (d ++ [(k, v)]) k r = d ++ [(k, v ++ [r])].
Proof.
  induction d as [|[k' v'] d IH]; simpl; intros H.
  - by rewrite String.eqb_refl.
  - destruct (String.eqb_spec k' k) as [->|E]; [tauto|].
    rewrite IH; [done | tauto].
Qed.

Lemma fold_setdefault_last d k v rs :
  ~ In k (map fst d) ->
  fold_left (fun d r => setdefault_append d k r) rs (d ++ [(k, v)])
  = d ++ [(k, v ++ rs)].
Proof.
  revert v. induction rs as [|r rs IH]; intros v H; simpl.
  - by rewrite app_nil_r.
  - rewrite setdefault_append_last, IH by done. by rewrite <- app_assoc.
Qed.

Lemma fold_setdefault_fresh d k rs :
  ~ In k (map fst d) ->
  fold_left (fun d r => setdefault_append d k r) rs d
  = match rs with [] => d | _ => d ++ [(k, rs)] end.
Proof.
  destruct rs as [|r rs]; intros H; simpl; [done|].
  by rewrite setdefault_append_fresh, fold_setdefault_last.
Qed.

Lemma mapM_operand {A} (f : A -> option Z) (l : list A) :
  (forall x, In x l -> f x <> None) ->
  mapM operand (map f l) = inr (omap f l).
Proof.
  induction l as [|x l IH]; intros H; simpl; [done|].
  destruct (f x) eqn:E; [|exfalso; apply (H x); simpl; auto].
  simpl. rewrite IH by (intros; apply H; simpl; auto). done.
Qed.

Lemma file_ranges_valid file :
  valid_file file -> file_ranges file = inr (runs (added_numbers file)).
Proof.
  intros [Hnum _]. unfold file_ranges, added_lines.
  rewrite mapM_operand.
  - simpl. by rewrite groupby_runs.
  - intros l Hl E. apply filter_In in Hl as [Hl Ha].
    apply Hnum in E; [|done]. unfold is_added, is_removed in *.
    by destruct (line_type l).
Qed.

Lemma omap_filter_elem {A} (f : A -> option Z) p (l : list A) x :
  x ∈ omap f (List.filter p l) -> x ∈ omap f l.
Proof.
  rewrite !list_elem_of_omap. intros (y & Hy & ?). exists y. split; [|done].
  apply list_elem_of_In. apply list_elem_of_In, filter_In in Hy. tauto.
Qed.

Lemma sorted_filter {A} (f : A -> option Z) p (l : list A) :
  StronglySorted Z.lt (omap f l) ->
  StronglySorted Z.lt (omap f (List.filter p l)).
Proof.
  induction l as [|x l IH]; simpl; [done|].
  destruct (f x) as [n|] eqn:E; intros Hs.
  - apply StronglySorted_inv in Hs as [Hs Hall].
    destruct (p x); simpl; rewrite ?E; [|auto].
    constructor; [auto|]. rewrite Forall_forall in *.
    eauto using omap_filter_elem.
  - destruct (p x); simpl; rewrite ?E; auto.
Qed.

Lemma added_numbers_increasing file :
  valid_file file -> StronglySorted Z.lt (added_numbers file).
Proof. intros [_ Hs]. by apply sorted_filter. Qed.

Lemma runs_from_not_nil l s e : runs_from s e l <> [].
Proof.
  revert s e. induction l as [|x l IH]; intros s e; simpl; [done|].
  destruct (x =? e + 1); [apply IH | done].
Qed.

Lemma runs_nil l : runs l = [] -> l = [].
Proof. destruct l; [done|]. simpl. intros H. by apply runs_from_not_nil in H. Qed.

Lemma lines_by_file_entries diff d :
  NoDup (map filename diff) ->
  (forall file, In file diff -> valid_file file) ->
  (forall file, In file diff -> ~ In (filename file) (map fst d)) ->
  lines_by_file diff d = inr (d ++ entries diff).
Proof.
  revert d. induction diff as [|f diff IH]; intros d Hnd Hv Hd; simpl.
  - by rewrite app_nil_r.
  - apply NoDup_cons in Hnd as [Hf Hnd].
    rewrite file_ranges_valid by (apply Hv; simpl; auto). simpl.
    rewrite fold_setdefault_fresh by (apply Hd; simpl; auto).
    unfold entries. simpl. fold (entries diff).
    destruct (runs (added_numbers f)) as [|r rs] eqn:E.
    + apply IH; [done | intros; apply Hv; simpl; auto
                 | intros; apply Hd; simpl; auto].
    + rewrite IH; [by rewrite <- app_assoc | done
                   | intros; apply Hv; simpl; auto |].
      intros f' Hf'. rewrite map_app, in_app_iff. simpl.
      intros [H|[H|[]]]; [by apply (Hd f'); simpl; auto|].
      apply Hf. rewrite H. apply list_elem_of_In, in_map, Hf'.
Qed.

Lemma entries_In diff k rs :
  In (k, rs) (entries diff) <->
  exists file, In file diff /\ k = filename file
               /\ rs = runs (added_numbers file) /\ rs <> [].
Proof.
  unfold entries. rewrite <- list_elem_of_In, list_elem_of_omap. split.
  - intros (f & Hf & E). exists f. apply list_elem_of_In in Hf.
    destruct (runs (added_numbers f)) eqn:Er; [done|].
    injection E as <- <-. done.
  - intros (f & Hf & -> & -> & Hne). exists f. apply list_elem_of_In in Hf.
    split; [done|]. by destruct (runs (added_numbers f)).
Qed.

Lemma entries_keys diff :
  NoDup (map filename diff) -> NoDup (map fst (entries diff)).
Proof.
  induction diff as [|f diff IH]; simpl; [done|].
  intros [Hf Hnd]%NoDup_cons. unfold entries. simpl. fold (entries diff).
  destruct (runs (added_numbers f)); [auto|]. simpl.
  apply NoDup_cons. split; [|auto].
  intros H. apply Hf.
  apply list_elem_of_In, in_map_iff in H as ([k rs] & Hk & H).
  simpl in Hk. subst k. apply entries_In in H as (f' & ? & E & _).
  rewrite E. by apply list_elem_of_In, in_map.
Qed.

End LineFilter.

(** C2.  On a well-formed diff [get_line_ranges] returns, for every file with
    added lines, one record whose ranges cover exactly the file's added line
    numbers and are non-empty, ascending, disjoint and never adjacent; a file
    without added lines has no record.  A file whose added lines are 10, 11,
    12, 15, 16, 20 gets exactly the ranges [10,12], [15,16], [20,20]. *)
Theorem range_grouping (diff : Diff) :
  valid_diff diff ->
  exists out,
    get_line_ranges diff = inr out /\
    NoDup (map name out) /\
    forall file, In file diff ->
      (added_numbers file = [] ->
       forall e, In e out -> name e <> filename file) /\
      (added_numbers file <> [] ->
       exists rs,
         In {| name := filename file; ranges := rs |} out /\
         (forall n, In n (added_numbers file)
                    <-> exists r, In r rs /\ fst r <= n <= snd r) /\
         separated rs) /\
      (added_numbers file = [10; 11; 12; 15; 16; 20] ->
       In {| name := filename file;
             ranges := [(10, 12); (15, 16); (20, 20)] |} out).
Proof.
  intros [Hnd Hv]. unfold get_line_ranges.
  rewrite lines_by_file_entries by (done || auto). simpl.
  eexists. split; [done|].
  assert (Hin : forall file, In file diff -> added_numbers file <> [] ->
            In {| name := filename file;
                  ranges := runs (added_numbers file) |}
               (map (fun kv => {| name := fst kv; ranges := snd kv |})
                    (entries diff))).
  { intros file Hf Hne. apply in_map_iff.
    exists (filename file, runs (added_numbers file)). split; [done|].
    apply entries_In. exists file. repeat split; try done.
    intros H. by apply runs_nil in H. }
  split.
  { rewrite map_map. simpl. by apply entries_keys. }
  intros file Hf. split; [|split].
  - intros Hnone e He Hname.
    apply in_map_iff in He as ([k rs] & <- & He). simpl in Hname.
    apply entries_In in He as (f' & Hf' & Hk' & -> & Hne).
    rewrite Hname in Hk'.
    assert (f' = file) as ->.
    { apply list_elem_of_In in Hf, Hf'.
      apply list_elem_of_lookup in Hf as [i Hi], Hf' as [j Hj].
      assert (i = j) as ->; [|congruence].
      eapply NoDup_lookup; [exact Hnd| |];
        rewrite list_lookup_fmap; [by rewrite Hi | by rewrite Hj, Hk']. }
    by rewrite Hnone in Hne.
  - intros Hne. exists (runs (added_numbers file)).
    split; [auto|]. split; [apply runs_cover|].
    apply runs_separated, added_numbers_increasing, Hv, Hf.
  - intros E. specialize (Hin file Hf). rewrite E in Hin. by apply Hin.
Qed.

(** ** The review loop *)

Section ReviewLoop.

Variables (os : Process) (root : string) (lookup : LineLookup).

Implicit Types (line : string) (rest pre post : list string)
  (acc : list ReviewComment).

Lemma bind_assoc {A B C} (r : Result A) (f : A -> Result B)
  (g : B -> Result C) :
  bind (bind r f) g = bind r (fun a => bind (f a) g).
Proof. by destruct r. Qed.

Lemma review_loop_cons line rest acc :
  review_loop os root lookup (line :: rest) acc
  = (acc' <- review_line os root lookup line rest acc ;;
     review_loop os root lookup rest acc').
Proof. done. Qed.

(** The comments found so far are only ever extended. *)
Lemma review_line_acc line rest acc :
  review_line os root lookup line rest acc
  = (cs <- review_line os root lookup line rest [] ;; inr (acc ++ cs)).
Proof.
  unfold review_line.
  destruct (Py.contains "warning" line); [|by simpl; rewrite app_nil_r].
  destruct (Py.startswith "warning" line); [by simpl; rewrite app_nil_r|].
  destruct (Py.split ":" 3 line) as [|? [|? [|? [|? [|? ?]]]]]; try done.
  destruct (Posixpath.relpath os _ root); [done|]. simpl.
  destruct (getitem_path lookup _); [done|]. simpl.
  destruct (to_int _ _); [done|]. simpl.
  by destruct (getitem_line _ _).
Qed.

Lemma review_loop_acc contents acc :
  review_loop os root lookup contents acc
  = (cs <- review_loop os root lookup contents [] ;; inr (acc ++ cs)).
Proof.
  revert acc. induction contents as [|line rest IH]; intros acc; simpl.
  - by rewrite app_nil_r.
  - rewrite review_line_acc.
    destruct (review_line os root lookup line rest []) as [e|cs]; [done|].
    simpl. rewrite IH, (IH cs).
    destruct (review_loop os root lookup rest []) as [e|cs']; [done|].
    simpl. by rewrite app_assoc.
Qed.

(** The body of a record ends at the next line that carries the marker. *)
Lemma collect_body_marker full_path rel_path pre marker post body :
  Py.contains "warning" marker = true ->
  collect_body full_path rel_path (pre ++ marker :: post) body
  = collect_body full_path rel_path pre body.
Proof.
  intros Hm. revert body. induction pre as [|l pre IH]; intros body; simpl.
  - by rewrite Hm.
  - by destruct (Py.contains "warning" l).
Qed.

Lemma review_line_marker line pre marker post acc :
  Py.contains "warning" marker = true ->
  review_line os root lookup line (pre ++ marker :: post) acc
  = review_line os root lookup line pre acc.
Proof.
  intros Hm. unfold review_line.
  destruct (Py.contains "warning" line); [|done].
  destruct (Py.startswith "warning" line); [done|].
  destruct (Py.split ":" 3 line) as [|? [|? [|? [|? [|? ?]]]]]; try done.
  destruct (Posixpath.relpath os _ root); [done|]. simpl.
  by rewrite collect_body_marker.
Qed.

(** A marker line cuts the stream: what comes before it is processed as if
    the stream ended there. *)
Lemma review_loop_marker pre marker post acc :
  Py.contains "warning" marker = true ->
  review_loop os root lookup (pre ++ marker :: post) acc
  = (acc' <- review_loop os root lookup pre acc ;;
     review_loop os root lookup (marker :: post) acc').
Proof.
  intros Hm. revert acc. induction pre as [|l pre IH]; intros acc; [done|].
  cbn [app review_loop]. rewrite review_line_marker by done.
  destruct (review_line os root lookup l pre acc); [done|]. simpl. apply IH.
Qed.

Lemma review_loop_no_marker contents acc :
  Forall (fun l => Py.contains "warning" l = false) contents ->
  review_loop os root lookup contents acc = inr acc.
Proof.
  induction 1 as [|l ls Hl _ IH]; simpl; [done|].
  unfold review_line. by rewrite Hl.
Qed.

Lemma startswith_contains p s :
  Py.startswith p s = true -> Py.contains p s = true.
Proof. destruct s; simpl; intros ->; done. Qed.

(** A marker line without a path adds nothing. *)
Lemma review_line_skip line rest acc :
  Py.startswith "warning" line = true ->
  review_line os root lookup line rest acc = inr acc.
Proof.
  intros H. unfold review_line. by rewrite startswith_contains, H.
Qed.

(** A record that cannot be unpacked raises. *)
Lemma review_line_unpack line rest acc :
  Py.contains "warning" line = true ->
  Py.startswith "warning" line = false ->
  (length (Py.split ":" 3 line) < 4)%nat ->
  review_line os root lookup line rest acc
  = inl (ValueError_unpack (length (Py.split ":" 3 line))).
Proof.
  intros Hc Hs Hlen. unfold review_line. rewrite Hc, Hs.
  destruct (Py.split ":" 3 line) as [|? [|? [|? [|? [|? ?]]]]];
    simpl in *; try done; lia.
Qed.

End ReviewLoop.

Section Review.

Variables (os : Process) (lookup : LineLookup).

Implicit Types (line : string) (pre post contents : list string).

Lemma make_review_loop contents :
  make_review contents lookup os
  = (cs <- review_loop os (cwd os) lookup contents [] ;; inr (review_with cs)).
Proof. done. Qed.

Lemma make_review_marker pre marker post :
  Py.contains "warning" marker = true ->
  make_review (pre ++ marker :: post) lookup os
  = (acc <- review_loop os (cwd os) lookup pre [] ;;
     cs <- review_loop os (cwd os) lookup (marker :: post) acc ;;
     inr (review_with cs)).
Proof.
  intros Hm. rewrite make_review_loop, review_loop_marker by done.
  apply bind_assoc.
Qed.

Lemma split_all_not_nil sep s : Py.split_all sep s <> [].
Proof.
  destruct s as [|c s]; simpl; [done|].
  destruct (Ascii.eqb c sep); [done|]. by destruct (Py.split_all sep s).
Qed.

(** With few enough separators the bound on the cuts is never reached. *)
Lemma split_few sep n s :
  (length (Py.split_all sep s) <= S n)%nat ->
  Py.split sep n s = Py.split_all sep s.
Proof.
  revert n. induction s as [|c s IH]; intros n Hlen; simpl in *; [done|].
  destruct n as [|m].
  - destruct (Ascii.eqb c sep).
    + pose proof (split_all_not_nil sep s).
      destruct (Py.split_all sep s); simpl in *; [done | lia].
    + specialize (IH 0%nat).
      destruct (Py.split_all sep s) as [|w [|? ?]] eqn:E; simpl in *;
        [by apply split_all_not_nil in E | | lia].
      assert (Py.split sep 0 s = [w]) as Hw by (apply IH; lia).
      destruct s; simpl in Hw; congruence.
  - destruct (Ascii.eqb c sep).
    + simpl in Hlen. rewrite IH; [done | lia].
    + rewrite IH; [done|].
      destruct (Py.split_all sep s); simpl in *; lia.
Qed.

Lemma review_line_resolvable line rest acc cs :
  review_line os (cwd os) lookup line rest acc = inr cs ->
  Forall (resolvable lookup) acc -> Forall (resolvable lookup) cs.
Proof.
  unfold review_line. intros H Hacc.
  destruct (Py.contains "warning" line); [|congruence].
  destruct (Py.startswith "warning" line); [congruence|].
  destruct (Py.split ":" 3 line) as [|fp [|sl [|? [|w [|? ?]]]]]; try done.
  destruct (Posixpath.relpath os fp (cwd os)) as [|rp]; [done|]. simpl in H.
  unfold getitem_path in H. destruct (lookup !! rp) as [t|] eqn:Et; [|done].
  simpl in H. destruct (to_int os sl) as [|n]; [done|]. simpl in H.
  unfold getitem_line in H. destruct (t !! Some n) as [p|] eqn:Ep; [|done].
  simpl in H. injection H as <-. apply Forall_app. split; [done|].
  constructor; [|constructor]. exists t, n. done.
Qed.

Lemma review_loop_resolvable contents acc cs :
  review_loop os (cwd os) lookup contents acc = inr cs ->
  Forall (resolvable lookup) acc -> Forall (resolvable lookup) cs.
Proof.
  revert acc. induction contents as [|l rest IH]; intros acc; simpl.
  - by intros [= <-].
  - destruct (review_line os (cwd os) lookup l rest acc) eqn:E; [done|].
    simpl. eauto using review_line_resolvable.
Qed.

End Review.

(** C6.  A line that starts with "warning" adds no comment and does not
    stop the run: the review of a stream that contains such a line is made
    of the comments of the lines before it followed by the comments of the
    lines after it, and it fails only where one of those two parts fails. *)
Theorem skip_without_path (os : Process) (lookup : LineLookup)
  (pre post : list string) (line : string) :
  Py.startswith "warning" line = true ->
  make_review (pre ++ line :: post) lookup os
  = (before <- make_review pre lookup os ;;
     after <- make_review post lookup os ;;
     inr (review_with (comments before ++ comments after))).
Proof.
  intros Hs. rewrite make_review_marker by by apply startswith_contains.
  rewrite !make_review_loop.
  destruct (review_loop os (cwd os) lookup pre []) as [e|cs1]; [done|].
  cbn [bind review_loop]. rewrite review_line_skip by done. cbn [bind].
  rewrite review_loop_acc.
  by destruct (review_loop os (cwd os) lookup post []).
Qed.

(** C7.  A stream with a line that contains "warning", does not start with
    it and has fewer than three colon-separated fields makes [make_review]
    raise: no review is returned, and when the lines before it are processed
    without error the exception is the failed unpacking of the split. *)
Theorem malformed_record_raises (os : Process) (lookup : LineLookup)
  (contents : list string) (line : string) :
  In line contents ->
  Py.contains "warning" line = true ->
  Py.startswith "warning" line = false ->
  (length (Py.split_all ":" line) < 3)%nat ->
  (exists e, make_review contents lookup os = inl e) /\
  (forall pre post review,
     contents = pre ++ line :: post ->
     make_review pre lookup os = inr review ->
     make_review contents lookup os
     = inl (ValueError_unpack (length (Py.split_all ":" line)))).
Proof.
  intros Hin Hc Hs Hlen.
  assert (Hsplit : Py.split ":" 3 line = Py.split_all ":" line)
    by (apply split_few; lia).
  assert (Hraise : forall pre post,
            make_review (pre ++ line :: post) lookup os
            = (acc <- review_loop os (cwd os) lookup pre [] ;;
               inl (ValueError_unpack (length (Py.split_all ":" line))))).
  { intros pre post. rewrite make_review_marker by done.
    destruct (review_loop os (cwd os) lookup pre []) as [e|acc]; [done|].
    cbn [bind review_loop].
    rewrite review_line_unpack by (rewrite ?Hsplit; done || lia).
    by rewrite Hsplit. }
  split.
  - apply in_split in Hin as (pre & post & ->). rewrite Hraise.
    destruct (review_loop os (cwd os) lookup pre []); simpl; eauto.
  - intros pre post review -> Hpre. rewrite Hraise.
    rewrite make_review_loop in Hpre.
    by destruct (review_loop os (cwd os) lookup pre []).
Qed.

(** C4.  A record whose root-relative path and source line are not in the
    lookup table makes [make_review] raise: no review is returned, and when
    the lines before the record are processed without error the exception is
    the key error of the missing key, the path or the line.  Every comment
    of a review that is returned has a position read from the table. *)
Theorem missing_position_raises (os : Process) (lookup : LineLookup)
  (pre post : list string) (line full_path source_line column warning : string)
  (rel_path : string) (n : Z) :
  Py.contains "warning" line = true ->
  Py.startswith "warning" line = false ->
  Py.split ":" 3 line = [full_path; source_line; column; warning] ->
  Posixpath.relpath os full_path (cwd os) = inr rel_path ->
  Py.int (int_max_str_digits os) source_line = Some n ->
  lookup !! rel_path ≫= (fun table => table !! Some n) = None ->
  (exists e, make_review (pre ++ line :: post) lookup os = inl e) /\
  (forall review,
     make_review pre lookup os = inr review ->
     make_review (pre ++ line :: post) lookup os
     = inl (match lookup !! rel_path with
            | None => KeyError_path rel_path
            | Some _ => KeyError_line n
            end)) /\
  (forall contents review,
     make_review contents lookup os = inr review ->
     Forall (resolvable lookup) (comments review)).
Proof.
  intros Hc Hs Hsplit Hrel Hint Hmiss.
  assert (Hline : forall acc,
            review_line os (cwd os) lookup line post acc
            = inl (match lookup !! rel_path with
                   | None => KeyError_path rel_path
                   | Some _ => KeyError_line n
                   end)).
  { intros acc. unfold review_line. rewrite Hc, Hs, Hsplit, Hrel. simpl.
    unfold getitem_path. destruct (lookup !! rel_path) as [t|]; [|done].
    simpl in *. unfold to_int. rewrite Hint. simpl.
    unfold getitem_line. by rewrite Hmiss. }
  assert (Hraise :
            make_review (pre ++ line :: post) lookup os
            = (acc <- review_loop os (cwd os) lookup pre [] ;;
               inl (match lookup !! rel_path with
                    | None => KeyError_path rel_path
                    | Some _ => KeyError_line n
                    end))).
  { rewrite make_review_marker by done.
    destruct (review_loop os (cwd os) lookup pre []) as [e|acc]; [done|].
    cbn [bind review_loop]. by rewrite Hline. }
  split; [|split].
  - rewrite Hraise.
    destruct (review_loop os (cwd os) lookup pre []); simpl; eauto.
  - intros review Hpre. rewrite Hraise. rewrite make_review_loop in Hpre.
    by destruct (review_loop os (cwd os) lookup pre []).
  - intros contents review. rewrite make_review_loop.
    destruct (review_loop os (cwd os) lookup contents []) as [|cs] eqn:E;
      [done|].
    intros [= <-]. simpl. eapply review_loop_resolvable; [exact E | constructor].
Qed.

(** ** Filtering against the posted comments *)

Section Dedup.

Implicit Types (posted : list PullRequestComment) (review : Review)
  (cs : list ReviewComment).

Lemma filter_twice {A} (f g : A -> bool) (l : list A) :
  List.filter g (List.filter f l) = List.filter (fun x => f x && g x) l.
Proof.
  induction l as [|x l IH]; simpl; [done|].
  destruct (f x); simpl; [|done]. destruct (g x); by rewrite IH.
Qed.

(** The loop over the posted comments amounts to one pass that drops the
    comments matched by any of them. *)
Lemma filter_review_comments posted review :
  comments (filter_review posted review)
  = List.filter (fun rc => negb (existsb (same_comment rc) posted))
                (comments review).
Proof.
  unfold filter_review. revert review.
  induction posted as [|p posted IH]; intros review; simpl.
  - induction (comments review) as [|c cs IHc]; simpl; congruence.
  - rewrite IH. simpl. rewrite filter_twice. apply filter_ext.
    intros rc. by rewrite negb_orb.
Qed.

Lemma filter_review_fields posted review :
  review_body (filter_review posted review) = review_body review /\
  event (filter_review posted review) = event review.
Proof.
  unfold filter_review. revert review.
  induction posted as [|p posted IH]; intros review; simpl; [done|].
  by destruct (IH (drop_posted review p)) as [-> ->].
Qed.

Lemma same_comment_triple rc p :
  same_comment rc p = true <-> triple rc = posted_triple p.
Proof.
  unfold same_comment, triple, posted_triple.
  rewrite !andb_true_iff, !String.eqb_eq, Z.eqb_eq. split.
  - by intros [[-> ->] ->].
  - intros [= -> -> ->]. done.
Qed.

Lemma matched_iff rc posted :
  existsb (same_comment rc) posted = true
  <-> exists p, In p posted /\ triple rc = posted_triple p.
Proof.
  rewrite existsb_exists. by setoid_rewrite same_comment_triple.
Qed.

Lemma filter_sublist {A} (f : A -> bool) (l : list A) :
  sublist (List.filter f l) l.
Proof.
  induction l as [|x l IH]; simpl; [constructor|].
  destruct (f x); by constructor.
Qed.

Lemma post_review_filter pull_request review :
  snd (post_review pull_request review)
  = filter_review (get_review_comments pull_request) review.
Proof.
  unfold post_review.
  by destruct (comments (filter_review _ review)).
Qed.

Lemma all_matched_empty posted review :
  (forall rc, In rc (comments review) ->
     exists p, In p posted /\ triple rc = posted_triple p) ->
  comments (filter_review posted review) = [].
Proof.
  intros Hall. rewrite filter_review_comments.
  induction (comments review) as [|c cs IH]; simpl; [done|].
  assert (existsb (same_comment c) posted = true) as ->
    by (apply matched_iff, Hall; simpl; auto).
  simpl. apply IH. intros; apply Hall; simpl; auto.
Qed.

Lemma post_review_nothing pull_request review :
  comments (filter_review (get_review_comments pull_request) review) = [] ->
  fst (post_review pull_request review)
  = [SetOutput 0; PrintMessage "Everything already posted!"].
Proof. intros E. unfold post_review. by rewrite E. Qed.

(** The posted comments once the actions of [post_review] are performed. *)
Lemma recorded_comments pull_request review :
  get_review_comments
    (fold_left perform (fst (post_review pull_request review)) pull_request)
  = get_review_comments pull_request
    ++ map as_posted
         (comments (filter_review (get_review_comments pull_request) review)).
Proof.
  unfold post_review.
  destruct (comments (filter_review _ review)) eqn:E; simpl.
  - by rewrite app_nil_r.
  - by rewrite E.
Qed.

End Dedup.

(** C5.  The comments that [post_review] leaves in the review are those of
    the input whose (path, position, body) is not the triple of any posted
    comment, each as often as it occurred and in the order of the input. *)
Theorem dedup_set_difference (pull_request : PullRequest) (review : Review) :
  let posted := get_review_comments pull_request in
  let kept := comments (snd (post_review pull_request review)) in
  (forall rc,
     In rc kept <->
     In rc (comments review) /\
     ~ exists p, In p posted /\ triple rc = posted_triple p) /\
  kept = List.filter (fun rc => negb (existsb (same_comment rc) posted))
                     (comments review) /\
  sublist kept (comments review).
Proof.
  intros posted kept. subst kept posted.
  rewrite post_review_filter, filter_review_comments.
  split; [|split; [done | apply filter_sublist]].
  intros rc. rewrite filter_In, negb_true_iff, <- matched_iff.
  destruct (existsb _ _); split; intros [? ?]; split; congruence.
Qed.

(** C8.  When every comment of the review has the triple of a posted
    comment, [post_review] leaves no comment in it, reports a total of zero
    and does not submit a review. *)
Theorem dedup_idempotent (pull_request : PullRequest) (review : Review) :
  (forall rc, In rc (comments review) ->
     exists p, In p (get_review_comments pull_request)
               /\ triple rc = posted_triple p) ->
  comments (snd (post_review pull_request review)) = [] /\
  fst (post_review pull_request review)
  = [SetOutput 0; PrintMessage "Everything already posted!"] /\
  posts_review (fst (post_review pull_request review)) = false.
Proof.
  intros Hall. apply all_matched_empty in Hall.
  rewrite post_review_filter, post_review_nothing by done. done.
Qed.

(** Posting a review and then posting it again, once the first submission
    is recorded on the pull request, submits nothing the second time. *)
Lemma post_review_twice (pull_request : PullRequest) (review : Review) :
  let first := post_review pull_request review in
  let recorded := fold_left perform (fst first) pull_request in
  comments (snd (post_review recorded review)) = [] /\
  posts_review (fst (post_review recorded review)) = false.
Proof.
  intros first recorded.
  assert (comments (filter_review (get_review_comments recorded) review) = [])
    as E.
  { apply all_matched_empty. intros rc Hrc.
    subst recorded first. rewrite recorded_comments.
    setoid_rewrite in_app_iff.
    destruct (existsb (same_comment rc) (get_review_comments pull_request))
      eqn:Em.
    - apply matched_iff in Em as (p & Hp & Ht). eauto.
    - exists (as_posted rc). split; [|done]. right. apply in_map.
      rewrite filter_review_comments. apply filter_In. by rewrite Em. }
  rewrite post_review_filter, post_review_nothing by done. done.
Qed.

(** ** The theorems at the sample data *)

Lemma sample_diff_valid : valid_diff sample_diff.
Proof.
  split.
  - apply NoDup_ListNoDup. simpl.
    constructor; [intros [H|[]]; vm_compute in H; discriminate H|].
    constructor; [simpl; tauto | constructor].
  - intros file [<-|[<-|[]]]; split.
    + intros line Hl. simpl in Hl.
      repeat (destruct Hl as [<-|Hl]; [by split|]). done.
    + repeat constructor.
    + intros line Hl. simpl in Hl.
      repeat (destruct Hl as [<-|Hl]; [by split|]). done.
    + repeat constructor.
Qed.

Lemma lookup_completeness_witness :
  make_file_line_lookup sample_diff !! "foo.cpp"
    ≫= (fun table => table !! Some 15) = Some 9 /\
  make_file_line_lookup sample_diff !! "foo.cpp"
    ≫= (fun table => table !! None) = None.
Proof.
  split.
  - apply (lookup_completeness sample_diff foo_cpp foo_hunk2
             (line_at Added (Some 15) 14) sample_diff_valid);
      simpl; auto.
  - apply (lookup_completeness sample_diff foo_cpp foo_hunk1
             (line_at Removed None 10) sample_diff_valid);
      simpl; auto 10.
Defined.

Lemma range_grouping_witness :
  exists out,
    get_line_ranges sample_diff = inr out /\
    In {| name := "foo.cpp"; ranges := [(10, 12); (15, 16); (20, 20)] |} out /\
    forall e, In e out -> name e <> "bar.h".
Proof.
  destruct (range_grouping sample_diff sample_diff_valid)
    as (out & Hout & _ & Hfiles).
  exists out. split; [exact Hout|]. split.
  - destruct (Hfiles foo_cpp) as (_ & _ & H); [simpl; auto|].
    apply H. reflexivity.
  - destruct (Hfiles bar_h) as (H & _); [simpl; auto|].
    apply H. reflexivity.
Defined.

Lemma missing_position_raises_witness :
  make_review
    [sample_record; "    int x = 0;"; "/abs/path/foo.cpp:99:1: warning: w";
     sample_record]
    sample_lookup sample_os
  = inl (KeyError_line 99).
Proof.
  destruct (missing_position_raises sample_os sample_lookup
              [sample_record; "    int x = 0;"] [sample_record]
              "/abs/path/foo.cpp:99:1: warning: w"
              "/abs/path/foo.cpp" "99" "1" " warning: w" "foo.cpp" 99)
    as (_ & H & _); [by vm_compute..|].
  apply (H (review_with [{| path := "foo.cpp";
                            body := "warning: unused variable `x`" +:+ nl +:+
                                    nl +:+ "```cpp" +:+ nl +:+ "int x = 0;"
                                    +:+ nl +:+ "```" +:+ nl;
                            position := 7 |}])).
  by vm_compute.
Defined.

Lemma skip_without_path_witness :
  make_review
    ["warning: no path here"; sample_record; "    int x = 0;"; "        ^"]
    sample_lookup sample_os
  = inr (review_with [sample_comment]).
Proof.
  etransitivity;
    [exact (skip_without_path sample_os sample_lookup []
              [sample_record; "    int x = 0;"; "        ^"]
              "warning: no path here" eq_refl)
    | by vm_compute].
Defined.

Lemma malformed_record_raises_witness :
  make_review [sample_record; "2 warnings generated."] sample_lookup sample_os
  = inl (ValueError_unpack 1).
Proof.
  destruct (malformed_record_raises sample_os sample_lookup
              [sample_record; "2 warnings generated."]
              "2 warnings generated.") as (_ & H);
    [simpl; auto | by vm_compute | by vm_compute | vm_compute; lia |].
  apply (H [sample_record] [] (review_with
              [{| path := "foo.cpp";
                  body := "warning: unused variable `x`" +:+ nl +:+ nl +:+
                          "```cpp" +:+ nl +:+ nl +:+ "```" +:+ nl;
                  position := 7 |}])); by vm_compute.
Defined.

Lemma dedup_idempotent_witness :
  comments
    (snd (post_review
            {| get_review_comments := [as_posted sample_comment] |}
            (review_with [sample_comment; sample_comment])))
  = [].
Proof.
  apply (dedup_idempotent
           {| get_review_comments := [as_posted sample_comment] |}
           (review_with [sample_comment; sample_comment])).
  intros rc [<-|[<-|[]]]; exists (as_posted sample_comment);
    (split; [simpl; auto | reflexivity]).
Defined.


(** * Further properties *)

(** ** The review of a stream *)

Section Stream.

Variables (os : Process) (lookup : LineLookup).

Lemma review_line_count line rest acc cs :
  review_line os (cwd os) lookup line rest acc = inr cs ->
  length cs = (length acc + if is_record line then 1 else 0)%nat.
Proof.
  unfold review_line, is_record. intros H.
  destruct (Py.contains "warning" line); cbn [andb];
    [|injection H as <-; lia].
  destruct (Py.startswith "warning" line); cbn [negb];
    [injection H as <-; lia|].
  destruct (Py.split ":" 3 line) as [|fp [|sl [|? [|w [|? ?]]]]]; try done.
  destruct (Posixpath.relpath os fp (cwd os)); [done|]. simpl in H.
  destruct (getitem_path lookup _); [done|]. simpl in H.
  destruct (to_int os sl); [done|]. simpl in H.
  destruct (getitem_line _ _); [done|]. simpl in H.
  injection H as <-. rewrite length_app. simpl. lia.
Qed.

Lemma review_loop_count contents acc cs :
  review_loop os (cwd os) lookup contents acc = inr cs ->
  length cs = (length acc + length (List.filter is_record contents))%nat.
Proof.
  revert acc. induction contents as [|l rest IH]; intros acc; simpl.
  - intros [= <-]. lia.
  - destruct (review_line os (cwd os) lookup l rest acc) as [|acc'] eqn:E;
      [done|]. simpl. intros H. apply IH in H.
    apply review_line_count in E. destruct (is_record l); simpl; lia.
Qed.

End Stream.


(** X2.  A stream can be cut in front of any line that carries the marker:
    the review of the whole is made of the comments of the part before the
    cut followed by the comments of the part from the cut on, and it fails
    where one of the parts fails. *)
Theorem review_of_parts (os : Process) (lookup : LineLookup)
  (pre post : list string) (marker : string) :
  Py.contains "warning" marker = true ->
  make_review (pre ++ marker :: post) lookup os
  = (before <- make_review pre lookup os ;;
     after <- make_review (marker :: post) lookup os ;;
     inr (review_with (comments before ++ comments after))).
Proof.
  intros Hm. rewrite make_review_marker by done. rewrite !make_review_loop.
  destruct (review_loop os (cwd os) lookup pre []) as [e|cs1]; [done|].
  cbn [bind]. rewrite review_loop_acc.
  by destruct (review_loop os (cwd os) lookup (marker :: post) []).
Qed.

(** X3.  A review that is returned has one comment for each line of the
    stream that carries the marker without starting with it. *)
Theorem one_comment_per_record (os : Process) (lookup : LineLookup)
  (contents : list string) (review : Review) :
  make_review contents lookup os = inr review ->
  length (comments review) = length (List.filter is_record contents).
Proof.
  rewrite make_review_loop.
  destruct (review_loop os (cwd os) lookup contents []) as [|cs] eqn:E;
    [done|].
  intros [= <-]. by apply review_loop_count in E.
Qed.

(** ** From the diff to the review *)

Lemma lookup_origin (diff : Diff) (lookup : LineLookup) nm table :
  fold_left lookup_file diff lookup !! nm = Some table ->
  lookup !! nm = Some table \/
  exists file, In file diff /\ filename file = nm /\ table = file_table file.
Proof.
  revert lookup. induction diff as [|f diff IH]; intros lookup; simpl; [auto|].
  intros H. apply IH in H as [H|(file & ? & ? & ?)]; [|right; eauto].
  rewrite lookup_file_table in H.
  destruct (decide (filename f = nm)) as [E|E].
  - rewrite E, lookup_insert_eq in H. injection H as <-. right. eauto.
  - rewrite lookup_insert_ne in H by done. auto.
Qed.

(** X4.  Whatever the diff, every comment of a review built with the table
    of that diff sits on a context or added line of a file of the diff: its
    path is the file's and its position is the line's number in the diff
    minus the header offset. *)
Theorem comments_anchored (diff : Diff) (contents : list string)
  (os : Process) (review : Review) :
  make_review contents (make_file_line_lookup diff) os = inr review ->
  Forall (anchored diff) (comments review).
Proof.
  rewrite make_review_loop.
  destruct (review_loop os (cwd os) _ contents []) as [|cs] eqn:E; [done|].
  intros [= <-]. simpl.
  apply review_loop_resolvable in E; [|constructor].
  eapply Forall_impl; [exact E|].
  intros c (table & n & Ht & Hp). unfold make_file_line_lookup in Ht.
  apply lookup_origin in Ht as [Ht|(file & Hf & Hn & ->)]; [done|].
  unfold file_table in Hp.
  apply table_sound in Hp as [Hp|(line & Hl & Hk & Hn' & Hpos)]; [done|].
  exists file, line, n. done.
Qed.

(** ** The shape of a record *)

Lemma split_not_nil sep n s : Py.split sep n s <> [].
Proof.
  destruct s as [|c s]; simpl; [done|]. destruct n; [done|].
  destruct (Ascii.eqb c sep); [done|]. by destruct (Py.split sep (S n) s).
Qed.

Lemma join_cons sep x y l :
  Py.join sep (x :: y :: l) = x +:+ sep +:+ Py.join sep (y :: l).
Proof. done. Qed.

Lemma join_push sep c w ws :
  Py.join sep (String c w :: ws) = String c (Py.join sep (w :: ws)).
Proof. by destruct ws. Qed.

(** Joining the pieces of a split with the separator gives the string
    back. *)
Lemma split_join sep n s :
  Py.join (String sep "") (Py.split sep n s) = s.
Proof.
  revert n. induction s as [|c s IH]; intros n; [done|].
  destruct n as [|m]; [done|]. simpl.
  destruct (Ascii.eqb_spec c sep) as [->|E].
  - pose proof (split_not_nil sep m s) as Hne. specialize (IH m).
    destruct (Py.split sep m s) as [|y l]; [done|].
    rewrite join_cons, IH. done.
  - pose proof (split_not_nil sep (S m) s) as Hne. specialize (IH (S m)).
    destruct (Py.split sep (S m) s) as [|w ws]; [done|].
    by rewrite join_push, IH.
Qed.

(** Every piece but the last is free of the separator. *)
Lemma split_free sep n s :
  Forall (fun p => free_of sep p = true) (removelast (Py.split sep n s)).
Proof.
  revert n. induction s as [|c s IH]; intros n; [constructor|].
  destruct n as [|m]; [constructor|]. simpl.
  destruct (Ascii.eqb_spec c sep) as [->|E].
  - pose proof (split_not_nil sep m s) as Hne. specialize (IH m).
    destruct (Py.split sep m s) as [|y l]; [done|].
    constructor; [done | exact IH].
  - pose proof (split_not_nil sep (S m) s) as Hne. specialize (IH (S m)).
    destruct (Py.split sep (S m) s) as [|w [|w' ws]]; [done | constructor |].
    apply Forall_cons in IH as [Hw Hws].
    constructor; [|exact Hws]. simpl.
    destruct (Ascii.eqb_spec c sep); [done|]. exact Hw.
Qed.

(** X5.  A line that adds a comment has the shape path:line:column:message:
    the line is these four pieces joined by colons, the first three hold no
    colon, so the message is everything after the third colon; the comment
    carries the root-relative path and the position found in the table under
    that path and line. *)
Theorem record_shape (os : Process) (root : string) (lookup : LineLookup)
  (line : string) (rest : list string) (acc cs : list ReviewComment) :
  review_line os root lookup line rest acc = inr cs ->
  is_record line = true ->
  exists full_path source_line column warning rel_path n pos,
    line = full_path +:+ ":" +:+ source_line +:+ ":" +:+ column
           +:+ ":" +:+ warning /\
    free_of ":" full_path = true /\ free_of ":" source_line = true /\
    free_of ":" column = true /\
    Posixpath.relpath os full_path root = inr rel_path /\
    Py.int (int_max_str_digits os) source_line = Some n /\
    lookup !! rel_path ≫= (fun table => table !! Some n) = Some pos /\
    cs = acc ++ [{| path := rel_path;
                    body := comment_body warning
                              (collect_body full_path rel_path rest "");
                    position := pos |}].
Proof.
  unfold review_line, is_record. intros H Hrec.
  apply andb_true_iff in Hrec as [Hc Hs]. apply negb_true_iff in Hs.
  rewrite Hc, Hs in H.
  pose proof (split_join ":" 3 line) as Hjoin.
  pose proof (split_free ":" 3 line) as Hfree.
  destruct (Py.split ":" 3 line) as [|fp [|sl [|col [|w [|? ?]]]]]; try done.
  destruct (Posixpath.relpath os fp root) as [|rp] eqn:Erel; [done|].
  simpl in H. unfold getitem_path in H.
  destruct (lookup !! rp) as [t|] eqn:Et; [|done]. simpl in H.
  unfold to_int in H.
  destruct (Py.int (int_max_str_digits os) sl) as [n|] eqn:En; [|done].
  simpl in H. unfold getitem_line in H.
  destruct (t !! Some n) as [p|] eqn:Ep; [|done]. simpl in H.
  injection H as <-.
  simpl in Hfree. apply Forall_cons in Hfree as [Hf1 Hfree].
  apply Forall_cons in Hfree as [Hf2 Hfree].
  apply Forall_cons in Hfree as [Hf3 _].
  exists fp, sl, col, w, rp, n, p.
  rewrite Et. simpl. repeat split; done.
Qed.

(** ** What is posted *)

(** X6.  [post_review] always reports the number of comments it leaves in
    the review.  It submits a review exactly when some comment has the
    triple of no posted comment, and what it submits is the filtered review:
    not empty, with the summary and the event of the input, and free of
    every posted triple. *)
Theorem post_review_submission (pull_request : PullRequest) (review : Review) :
  let posted := get_review_comments pull_request in
  let actions := fst (post_review pull_request review) in
  let left := snd (post_review pull_request review) in
  In (SetOutput (length (comments left))) actions /\
  (posts_review actions = true <->
   exists rc, In rc (comments review) /\
              forall p, In p posted -> triple rc <> posted_triple p) /\
  (forall r, In (CreateReview r) actions ->
     r = left /\ comments r <> [] /\
     review_body r = review_body review /\ event r = event review /\
     forall rc p, In rc (comments r) -> In p posted ->
                  triple rc <> posted_triple p).
Proof.
  intros posted actions left. subst actions left.
  rewrite post_review_filter. unfold post_review. fold posted.
  pose proof (filter_review_comments posted review) as Hc.
  pose proof (filter_review_fields posted review) as [Hb He].
  assert (Hkept : forall rc,
            In rc (comments (filter_review posted review)) <->
            In rc (comments review) /\
            forall p, In p posted -> triple rc <> posted_triple p).
  { intros rc. rewrite Hc, filter_In, negb_true_iff. split.
    - intros [Hin Hm]. split; [done|]. intros p Hp Ht.
      assert (existsb (same_comment rc) posted = true) as E
        by (apply matched_iff; eauto). congruence.
    - intros [Hin Hm]. split; [done|].
      destruct (existsb (same_comment rc) posted) eqn:E; [|done].
      apply matched_iff in E as (p & Hp & Ht). by destruct (Hm p Hp). }
  destruct (comments (filter_review posted review)) as [|c cs] eqn:E; simpl.
  - split; [auto|]. split.
    + split; [done|]. intros (rc & Hrc). by apply Hkept in Hrc.
    + intros r [H|[H|[]]]; discriminate H.
  - split; [auto|]. split.
    + split; [|done]. intros _. exists c. apply Hkept. simpl. auto.
    + intros r [H|[H|[H|[]]]]; try discriminate H. injection H as <-.
      rewrite E. repeat split; try done.
      intros rc p Hrc Hp. apply (proj1 (Hkept rc)); done.
Qed.

Lemma scan_issue_comments_cases (cs : list IssueComment) :
  (scan_issue_comments cs = [CreateIssueComment BODY]
   /\ forall c, In c cs -> issue_body c <> BODY)
  \/ (scan_issue_comments cs = [PrintAlreadyPosted]
      /\ exists c, In c cs /\ issue_body c = BODY).
Proof.
  induction cs as [|c cs IH]; simpl.
  - left. split; [done|]. intros ? [].
  - destruct (String.eqb_spec (issue_body c) BODY) as [E|E].
    + right. eauto.
    + destruct IH as [[-> H]|[-> (c' & ? & ?)]].
      * left. split; [done|]. intros c' [<-|?]; auto.
      * right. eauto.
Qed.

Lemma scan_issue_comments_found (cs1 cs2 : list IssueComment) c :
  issue_body c = BODY ->
  scan_issue_comments (cs1 ++ c :: cs2) = [PrintAlreadyPosted].
Proof.
  intros Hc. induction cs1 as [|c1 cs1 IH]; simpl.
  - by rewrite Hc, String.eqb_refl.
  - by destruct (String.eqb (issue_body c1) BODY).
Qed.

(** X7.  [post_lgtm_comment] creates the acknowledgment exactly when no
    comment of the conversation has its text, and creates nothing else; once
    its actions are performed, a second call creates nothing. *)
Theorem lgtm_posted_once (pull_request : Remote) :
  let actions := post_lgtm_comment pull_request in
  ((actions = [CreateIssueComment BODY]
    /\ forall c, In c (get_issue_comments pull_request) -> issue_body c <> BODY)
   \/ (actions = [PrintAlreadyPosted]
       /\ exists c, In c (get_issue_comments pull_request)
                    /\ issue_body c = BODY)) /\
  post_lgtm_comment (fold_left perform_issue actions pull_request)
  = [PrintAlreadyPosted].
Proof.
  intros actions. subst actions. unfold post_lgtm_comment.
  destruct (scan_issue_comments_cases (get_issue_comments pull_request))
    as [[E H]|[E (c & Hc & Hb)]]; rewrite E; split.
  - by left.
  - simpl. by apply scan_issue_comments_found.
  - right. eauto.
  - simpl. apply in_split in Hc as (cs1 & cs2 & ->).
    by apply scan_issue_comments_found.
Qed.

(** ** The files handed to clang-tidy *)

Section Selection.

Variable fnmatch : string -> string -> bool.

Lemma include_files_from (include changed acc : list string) :
  fold_left (fun files p => files ++ fnmatch_filter fnmatch changed p)
            include acc
  = acc ++ concat (map (fnmatch_filter fnmatch changed) include).
Proof.
  revert acc. induction include as [|p ps IH]; intros acc; simpl.
  - by rewrite app_nil_r.
  - by rewrite IH, app_assoc.
Qed.

Lemma include_files_concat (include changed : list string) :
  include_files fnmatch include changed
  = concat (map (fnmatch_filter fnmatch changed) include).
Proof. unfold include_files. by rewrite include_files_from. Qed.

Lemma exclude_files_filter (exclude files : list string) :
  exclude_files fnmatch exclude files
  = List.filter (fun f => negb (existsb (fnmatch f) exclude)) files.
Proof.
  unfold exclude_files. revert files.
  induction exclude as [|p ps IH]; intros files; simpl.
  - induction files as [|f fs IHf]; simpl; congruence.
  - rewrite IH, filter_twice. apply filter_ext. intros f.
    by rewrite negb_orb.
Qed.

Lemma count_occ_filter (g : string -> bool) (l : list string) (x : string) :
  count_occ String.string_dec (List.filter g l) x
  = if g x then count_occ String.string_dec l x else 0%nat.
Proof.
  induction l as [|y l IH]; simpl; [by destruct (g x)|].
  destruct (String.string_dec y x) as [->|E].
  - destruct (g x) eqn:Eg; simpl; [|done].
    destruct (String.string_dec x x); [|done]. by rewrite IH.
  - destruct (g y); simpl; [|done].
    destruct (String.string_dec y x); [done|]. exact IH.
Qed.

Lemma count_occ_included (include changed : list string) (f : string) :
  count_occ String.string_dec
    (concat (map (fnmatch_filter fnmatch changed) include)) f
  = (count_occ String.string_dec changed f
     * length (List.filter (fnmatch f) include))%nat.
Proof.
  induction include as [|p ps IH]; simpl; [lia|].
  rewrite count_occ_app, IH. unfold fnmatch_filter at 1.
  rewrite count_occ_filter. destruct (fnmatch f p); simpl; lia.
Qed.

End Selection.

(** X8.  The files handed to clang-tidy are the changed files that match
    some include pattern and no exclude pattern. *)
Theorem selected_files (fnmatch : string -> string -> bool)
  (include : list string) (exclude : option (list string))
  (changed_files : list string) (f : string) :
  In f (select_files fnmatch include exclude changed_files) <->
  In f changed_files /\
  (exists p, In p include /\ fnmatch f p = true) /\
  (forall p, In p (match exclude with None => [] | Some e => e end) ->
             fnmatch f p = false).
Proof.
  unfold select_files.
  rewrite exclude_files_filter, include_files_concat, filter_In, in_concat.
  rewrite negb_true_iff. split.
  - intros [(l & Hl & Hf) Hex].
    apply in_map_iff in Hl as (p & <- & Hp).
    apply filter_In in Hf as [Hf Hm]. split; [done|]. split; [eauto|].
    intros q Hq. destruct (fnmatch f q) eqn:E; [|done].
    assert (existsb (fnmatch f)
              (match exclude with None => [] | Some e => e end) = true)
      by (apply existsb_exists; eauto). congruence.
  - intros (Hf & (p & Hp & Hm) & Hex). split.
    + exists (fnmatch_filter fnmatch changed_files p). split.
      * by apply in_map.
      * by apply filter_In.
    + destruct (existsb _ _) eqn:E; [|done].
      apply existsb_exists in E as (q & Hq & Hm'). rewrite Hex in Hm'; done.
Qed.

(** X9.  A changed file that no exclude pattern matches is handed to
    clang-tidy once for every include pattern that matches it (and for every
    time it occurs among the changed files); an excluded file never is. *)
Theorem selected_file_count (fnmatch : string -> string -> bool)
  (include : list string) (exclude : option (list string))
  (changed_files : list string) (f : string) :
  count_occ String.string_dec (select_files fnmatch include exclude changed_files) f
  = if excluded_by fnmatch exclude f then 0%nat
    else (count_occ String.string_dec changed_files f
          * length (List.filter (fnmatch f) include))%nat.
Proof.
  unfold select_files, excluded_by.
  rewrite exclude_files_filter, include_files_concat, count_occ_filter.
  destruct (existsb _ _); simpl; [done|]. apply count_occ_included.
Qed.

(** ** The whole run *)

Lemma resolvable_anchored (diff : Diff) (c : ReviewComment) :
  resolvable (make_file_line_lookup diff) c -> anchored diff c.
Proof.
  intros (table & n & Ht & Hp). unfold make_file_line_lookup in Ht.
  apply lookup_origin in Ht as [Ht|(file & Hf & Hn & ->)]; [done|].
  unfold file_table in Hp.
  apply table_sound in Hp as [Hp|(line & Hl & Hk & Hn' & Hpos)]; [done|].
  exists file, line, n. done.
Qed.

Lemma filter_review_kept (posted : list PullRequestComment) (review : Review)
  (rc : ReviewComment) :
  In rc (comments (filter_review posted review)) <->
  In rc (comments review) /\
  forall p, In p posted -> triple rc <> posted_triple p.
Proof.
  rewrite filter_review_comments, filter_In, negb_true_iff. split.
  - intros [Hin Hm]. split; [done|]. intros p Hp Ht.
    assert (existsb (same_comment rc) posted = true) as E
      by (apply matched_iff; eauto). congruence.
  - intros [Hin Hm]. split; [done|].
    destruct (existsb (same_comment rc) posted) eqn:E; [|done].
    apply matched_iff in E as (p & Hp & Ht). by destruct (Hm p Hp).
Qed.

Section Run.

Variable fnmatch : string -> string -> bool.
Variable clang_tidy : list LineFilter -> string -> option (list string).

(** How a run that ends without exception got there. *)
Lemma main_inversion diff include exclude os pull_request out :
  main fnmatch clang_tidy diff include exclude os pull_request = inr out ->
  exists line_ranges,
    get_line_ranges diff = inr line_ranges /\
    let files := select_files fnmatch include exclude (map filename diff) in
    (files = [] /\ out = NoFiles) \/
    (files <> [] /\
     exists warnings review,
       clang_tidy line_ranges (Py.join " " files) = Some warnings /\
       make_review warnings (make_file_line_lookup diff) os = inr review /\
       ((comments review = []
         /\ out = AllClean (post_lgtm_comment pull_request)) \/
        (comments review <> []
         /\ out = Reviewed
                    (fst (post_review (review_side pull_request) review))
                    (snd (post_review (review_side pull_request) review))))).
Proof.
  unfold main. intros H.
  destruct (get_line_ranges diff) as [|lr]; [done|]. exists lr.
  split; [done|].
  destruct (select_files fnmatch include exclude (map filename diff))
    as [|f fs] eqn:Ef; [left; split; congruence|].
  right. split; [done|].
  destruct (clang_tidy lr _) as [ws|]; [|done].
  destruct (make_review ws (make_file_line_lookup diff) os) as [|review] eqn:Er;
    [done|].
  exists ws, review. split; [done|]. split; [done|].
  destruct (comments review) eqn:Ec; [left|right]; split; congruence.
Qed.

End Run.

(** X10.  When [main] goes on to [post_review], a review it submits is not
    empty, each of its comments sits on a context or added line of a file of
    the diff, and none has the triple of a comment already posted. *)
Theorem main_submits_anchored (fnmatch : string -> string -> bool)
  (clang_tidy : list LineFilter -> string -> option (list string))
  (diff : Diff) (include : list string) (exclude : option (list string))
  (os : Process) (pull_request : Remote) (actions : list Action)
  (left : Review) (r : Review) :
  main fnmatch clang_tidy diff include exclude os pull_request
  = inr (Reviewed actions left) ->
  In (CreateReview r) actions ->
  comments r <> [] /\
  Forall (anchored diff) (comments r) /\
  (forall rc p, In rc (comments r) ->
                In p (get_review_comments (review_side pull_request)) ->
                triple rc <> posted_triple p).
Proof.
  intros Hmain Hr.
  apply main_inversion in Hmain as (lr & _ & [[_ ?]|(_ & ws & review & _ & Hrev & H)]);
    [done|].
  destruct H as [[_ ?]|[_ [= -> ->]]]; [done|].
  rewrite make_review_loop in Hrev.
  destruct (review_loop os (cwd os) _ ws []) as [|cs] eqn:E; [done|].
  injection Hrev as <-.
  apply review_loop_resolvable in E; [|constructor].
  unfold post_review in Hr.
  destruct (comments (filter_review _ (review_with cs))) as [|c cs'] eqn:Ek;
    simpl in Hr.
  { destruct Hr as [H|[H|[]]]; discriminate H. }
  destruct Hr as [H|[H|[H|[]]]]; try discriminate H. injection H as <-.
  rewrite Ek. split; [done|]. rewrite <- Ek. split.
  - apply Forall_forall. intros rc Hrc.
    apply list_elem_of_In, filter_review_kept in Hrc as [Hrc _].
    apply resolvable_anchored.
    rewrite Forall_forall in E. apply E. by apply list_elem_of_In.
  - intros rc p Hrc Hp. apply filter_review_kept in Hrc as [_ Hrc]. auto.
Qed.

(** X11.  [main] takes the all-clean path only when the output of
    clang-tidy holds no record, that is no line that carries the marker
    without starting with it; it then does what [post_lgtm_comment] does
    and submits no review. *)
Theorem main_all_clean (fnmatch : string -> string -> bool)
  (clang_tidy : list LineFilter -> string -> option (list string))
  (diff : Diff) (include : list string) (exclude : option (list string))
  (os : Process) (pull_request : Remote) (actions : list IssueAction) :
  main fnmatch clang_tidy diff include exclude os pull_request
  = inr (AllClean actions) ->
  actions = post_lgtm_comment pull_request /\
  exists line_ranges warnings,
    get_line_ranges diff = inr line_ranges /\
    clang_tidy line_ranges
      (Py.join " " (select_files fnmatch include exclude (map filename diff)))
    = Some warnings /\
    List.filter is_record warnings = [].
Proof.
  intros Hmain.
  apply main_inversion in Hmain
    as (lr & Hlr & [[_ ?]|(_ & ws & review & Hws & Hrev & H)]); [done|].
  destruct H as [[Hc [= ->]]|[_ ?]]; [|done].
  split; [done|]. exists lr, ws. split; [done|]. split; [done|].
  rewrite make_review_loop in Hrev.
  destruct (review_loop os (cwd os) _ ws []) as [|cs] eqn:E; [done|].
  injection Hrev as <-. simpl in Hc. subst cs.
  apply review_loop_count in E. simpl in E.
  by destruct (List.filter is_record ws).
Qed.

(** ** The base directory *)

Section Strings.

Implicit Types (a b s : string) (c : ascii).

Lemma append_nil b : "" +:+ b = b.
Proof. done. Qed.

Lemma append_cons c a b : String c a +:+ b = String c (a +:+ b).
Proof. done. Qed.

Lemma append_assoc a b s : (a +:+ b) +:+ s = a +:+ (b +:+ s).
Proof.
  induction a as [|c a IH]; [done|]. by rewrite !append_cons, IH.
Qed.

Lemma append_nil_r a : a +:+ "" = a.
Proof. induction a as [|c a IH]; [done|]. by rewrite append_cons, IH. Qed.

Lemma length_append a b :
  String.length (a +:+ b) = (String.length a + String.length b)%nat.
Proof.
  induction a as [|c a IH]; [done|]. rewrite append_cons. simpl. by rewrite IH.
Qed.

Lemma take_append a b : take (String.length a) (a +:+ b) = a.
Proof.
  induction a as [|c a IH]; [by destruct b|].
  rewrite append_cons. simpl. by rewrite IH.
Qed.

Lemma drop_append a b : Py.drop (String.length a) (a +:+ b) = b.
Proof. induction a as [|c a IH]; [done|]. by rewrite append_cons. Qed.

Lemma endswith_append a b : endswith b (a +:+ b) = true.
Proof.
  unfold endswith. rewrite length_append.
  replace (String.length a + String.length b - String.length b)%nat
    with (String.length a) by lia.
  rewrite drop_append, String.eqb_refl.
  apply andb_true_iff. split; [|done]. apply Nat.leb_le. lia.
Qed.

Lemma length_take n s :
  String.length (take n s) = Nat.min n (String.length s).
Proof.
  revert s. induction n as [|n IH]; intros [|c s]; simpl; [done..|].
  by rewrite IH.
Qed.

Lemma take_prefix n s : Py.startswith (take n s) s = true.
Proof.
  revert s. induction n as [|n IH]; intros [|c s]; simpl; [done..|].
  by rewrite Ascii.eqb_refl, IH.
Qed.

End Strings.

(** X12.  When the recorded directory is a base, one more character and the
    build directory, the base directory computed for the rewriting of the
    compilation database is that base. *)
Theorem basedir_of_build_dir (base build_dir : string) (c : ascii) :
  basedir (base +:+ String c build_dir) build_dir = inr base.
Proof.
  unfold basedir.
  assert (base +:+ String c build_dir = (base +:+ String c "") +:+ build_dir)
    as E by (by rewrite append_assoc).
  rewrite E at 1. rewrite endswith_append. f_equal.
  unfold drop_last. rewrite length_append. simpl.
  replace (String.length base + S (String.length build_dir)
           - (String.length build_dir + 1))%nat
    with (String.length base) by lia.
  apply take_append.
Qed.

(** X13.  The base directory is always a prefix of the recorded directory
    and, unless that is empty, a proper one: also with the build directory
    ".", where a directory that does not end in "." loses its last
    character. *)
Theorem basedir_proper_prefix (original_directory build_dir b : string) :
  basedir original_directory build_dir = inr b ->
  Py.startswith b original_directory = true /\
  (original_directory <> "" ->
   (String.length b < String.length original_directory)%nat) /\
  (build_dir = "." -> endswith "." original_directory = false ->
   b = drop_last 1 original_directory).
Proof.
  unfold basedir. intros H.
  assert (Hshape : exists k, (1 <= k)%nat /\ b = drop_last k original_directory).
  { destruct (endswith build_dir original_directory).
    - injection H as <-. eexists. split; [|done]. lia.
    - destruct (String.eqb build_dir "."); [|done].
      injection H as <-. by exists 1%nat. }
  destruct Hshape as (k & Hk & ->). split; [apply take_prefix|]. split.
  - intros Hne. unfold drop_last. rewrite length_take.
    destruct original_directory; [done|]. simpl. lia.
  - intros -> Hend. rewrite Hend in H. simpl in H. by injection H as <-.
Qed.

(** ** Diffs that are not well formed *)

Section AnyDiff.

Implicit Types (d : RangeDict) (diff : Diff).

Lemma covered_setdefault d k r nm n :
  covered (setdefault_append d k r) nm n
  <-> covered d nm n \/ (nm = k /\ fst r <= n <= snd r).
Proof.
  unfold covered. induction d as [|[k' v] d IH]; simpl.
  - split.
    + intros (v & r' & [[= -> <-]|[]] & [<-|[]] & Hn). auto.
    + intros [(v & r' & [] & _)|[-> Hn]]. exists [r], r. simpl. auto.
  - destruct (String.eqb_spec k' k) as [->|E].
    + split.
      * intros (v' & r' & [[= -> <-]|Hin] & Hr & Hn).
        -- apply in_app_iff in Hr as [Hr|[<-|[]]]; [|auto].
           left. exists v, r'. simpl. auto.
        -- left. exists v', r'. simpl. auto.
      * intros [(v' & r' & [[= -> <-]|Hin] & Hr & Hn)|[-> Hn]].
        -- exists (v ++ [r]), r'. simpl. rewrite in_app_iff. auto.
        -- exists v', r'. simpl. auto.
        -- exists (v ++ [r]), r. simpl. rewrite in_app_iff. simpl. auto.
    + split.
      * intros (v' & r' & [[= -> <-]|Hin] & Hr & Hn).
        -- left. exists v, r'. simpl. auto.
        -- assert (covered d nm n \/ nm = k /\ fst r <= n <= snd r)
             as [(v'' & r'' & ? & ? & ?)|?] by (apply IH; eauto); [|auto].
           left. exists v'', r''. simpl. auto.
      * intros [(v' & r' & [[= -> <-]|Hin] & Hr & Hn)|[-> Hn]].
        -- exists v, r'. simpl. auto.
        -- assert (covered (setdefault_append d k r) nm n)
             as (v'' & r'' & ? & ? & ?) by (apply IH; left; eauto).
           exists v'', r''. simpl. auto.
        -- assert (covered (setdefault_append d k r) k n)
             as (v'' & r'' & ? & ? & ?) by (apply IH; auto).
           exists v'', r''. simpl. auto.
Qed.

Lemma keys_setdefault d k r x :
  In x (map fst (setdefault_append d k r)) <-> In x (map fst d) \/ x = k.
Proof.
  induction d as [|[k' v] d IH]; simpl.
  - split; [intros [?|[]]; auto | intros [[]|?]; auto].
  - destruct (String.eqb_spec k' k) as [->|E]; simpl.
    + split; [auto|]. intros [?|?]; auto.
    + rewrite IH. tauto.
Qed.

Lemma tidy_setdefault d k r : tidy d -> tidy (setdefault_append d k r).
Proof.
  intros [Hnd Hne]. split.
  - clear Hne. induction d as [|[k' v] d IH]; simpl.
    + constructor; [by intros [] | constructor].
    + simpl in Hnd. apply List.NoDup_cons_iff in Hnd as [Hk' Hnd].
      destruct (String.eqb_spec k' k) as [->|E]; simpl.
      * by constructor.
      * constructor; [|auto]. rewrite keys_setdefault.
        intros [?|?]; congruence.
  - clear Hnd. induction Hne as [|[k' v] d Hv Hd IH]; simpl.
    + by repeat constructor.
    + destruct (String.eqb k' k); constructor; try done.
      simpl. by destruct v.
Qed.

Lemma fold_setdefault d k rs nm n :
  covered (fold_left (fun d r => setdefault_append d k r) rs d) nm n
  <-> covered d nm n
      \/ (nm = k /\ exists r, In r rs /\ fst r <= n <= snd r).
Proof.
  revert d. induction rs as [|r rs IH]; intros d; simpl.
  - split; [auto|]. by intros [?|[_ (? & [] & _)]].
  - rewrite IH, covered_setdefault. split.
    + intros [[?|[-> ?]]|[-> (r' & ? & ?)]]; eauto 6.
    + intros [?|[-> (r' & [<-|?] & ?)]]; eauto 6.
Qed.

Lemma tidy_fold d k rs :
  tidy d -> tidy (fold_left (fun d r => setdefault_append d k r) rs d).
Proof.
  revert d. induction rs as [|r rs IH]; intros d H; simpl; [done|].
  by apply IH, tidy_setdefault.
Qed.

Lemma lines_by_file_any diff d :
  (forall file line, In file diff -> In line (lines file) ->
     is_added line = true -> target_line_no line <> None) ->
  tidy d ->
  exists d',
    lines_by_file diff d = inr d' /\ tidy d' /\
    forall nm n,
      covered d' nm n
      <-> covered d nm n
          \/ exists file, In file diff /\ filename file = nm
                          /\ In n (added_numbers file).
Proof.
  revert d. induction diff as [|f diff IH]; intros d Hnum Ht; simpl.
  - exists d. split; [done|]. split; [done|]. intros nm n.
    split; [auto|]. by intros [?|(? & [] & _)].
  - assert (file_ranges f = inr (runs (added_numbers f))) as ->.
    { unfold file_ranges, added_lines. rewrite mapM_operand.
      - simpl. by rewrite groupby_runs.
      - intros l Hl. apply filter_In in Hl as [Hl Ha].
        apply (Hnum f l); simpl; auto. }
    simpl.
    destruct (IH (fold_left (fun d r => setdefault_append d (filename f) r)
                            (runs (added_numbers f)) d))
      as (d' & Hd' & Ht' & Hcov).
    { intros file line Hf. apply Hnum. simpl. auto. }
    { by apply tidy_fold. }
    exists d'. split; [done|]. split; [done|]. intros nm n.
    rewrite Hcov, fold_setdefault. split.
    + intros [[?|[-> Hr]]|(file & ? & ? & ?)]; [auto| |right; eauto 6].
      right. exists f. split; [auto|]. split; [done|]. by apply runs_cover.
    + intros [?|(file & [<-|?] & <- & Hn)]; [auto| |right; eauto 6].
      left. right. split; [done|]. by apply runs_cover.
Qed.

Lemma lookup_keys diff (lookup : LineLookup) nm :
  is_Some (fold_left lookup_file diff lookup !! nm)
  <-> is_Some (lookup !! nm) \/ In nm (map filename diff).
Proof.
  revert lookup. induction diff as [|f diff IH]; intros lookup; simpl.
  - split; [auto | by intros [?|[]]].
  - rewrite IH, lookup_file_table.
    destruct (decide (filename f = nm)) as [->|E].
    + rewrite lookup_insert_eq. split; [auto|]. intros _. left. by eexists.
    + rewrite lookup_insert_ne by done. split; [intros [?|?]; auto|].
      intros [?|[?|?]]; auto. done.
Qed.

Lemma table_last (l1 l2 : list Line) (line : Line) (table : LineTable) :
  is_removed line = false ->
  (forall l, In l l2 -> is_removed l = false ->
             target_line_no l <> target_line_no line) ->
  fold_left table_line (l1 ++ line :: l2) table !! target_line_no line
  = Some (diff_line_no line - DIFF_HEADER_LINE_LENGTH).
Proof.
  intros Hk Hl2. rewrite fold_left_app. simpl.
  rewrite table_untouched by done.
  unfold table_line at 1. rewrite Hk. apply lookup_insert_eq.
Qed.

End AnyDiff.

(** X14.  On any diff whose added lines carry a line number, also one with
    repeated paths or hunks out of order, [get_line_ranges] returns records
    with distinct names and non-empty range lists, and a line number falls
    in a range listed under a name exactly when it is an added line of a
    file with that name. *)
Theorem line_filter_covers (diff : Diff) :
  (forall file line, In file diff -> In line (lines file) ->
     is_added line = true -> target_line_no line <> None) ->
  exists out,
    get_line_ranges diff = inr out /\
    List.NoDup (map name out) /\
    Forall (fun e => ranges e <> []) out /\
    forall nm n,
      in_filter out nm n
      <-> exists file, In file diff /\ filename file = nm
                       /\ In n (added_numbers file).
Proof.
  intros Hnum. unfold get_line_ranges.
  destruct (lines_by_file_any diff [] Hnum) as (d & -> & [Hnd Hne] & Hcov).
  { split; constructor. }
  simpl. eexists. split; [done|]. split; [|split].
  - by rewrite map_map.
  - apply Forall_forall. intros e He.
    apply list_elem_of_In, in_map_iff in He as (kv & <- & Hkv). simpl.
    rewrite Forall_forall in Hne. by apply Hne, list_elem_of_In.
  - intros nm n. transitivity (covered d nm n).
    + unfold in_filter, covered. split.
      * intros (e & r & He & <- & Hr & Hn).
        apply in_map_iff in He as ([k v] & <- & Hkv). simpl in *. eauto.
      * intros (v & r & Hkv & Hr & Hn).
        exists {| name := nm; ranges := v |}, r. simpl. split; [|done].
        apply in_map_iff. by exists (nm, v).
    + rewrite Hcov. split; [|auto].
      by intros [(? & ? & [] & _)|?].
Qed.

(** X15.  The table has an entry, possibly empty, for exactly the paths of
    the files of the diff: a record on a file of the diff can only miss its
    line, a record on any other file misses its path. *)
Theorem lookup_paths (diff : Diff) (nm : string) :
  is_Some (make_file_line_lookup diff !! nm) <-> In nm (map filename diff).
Proof.
  unfold make_file_line_lookup. rewrite lookup_keys, lookup_empty.
  split; [intros [[? H]|?]; [done | auto] | auto].
Qed.

(** X16.  On any diff the last write wins: the table of a path is that of
    the last file with this path, and in it a line number maps to the
    position of the last context or added line that carries it. *)
Theorem last_write_wins (diff pre post : Diff) (file : PatchedFile)
  (l1 l2 : list Line) (line : Line) :
  diff = pre ++ file :: post ->
  ~ In (filename file) (map filename post) ->
  lines file = l1 ++ line :: l2 ->
  is_removed line = false ->
  (forall l, In l l2 -> is_removed l = false ->
             target_line_no l <> target_line_no line) ->
  make_file_line_lookup diff !! filename file = Some (file_table file) /\
  file_table file !! target_line_no line = Some (diff_line_no line - 5).
Proof.
  intros -> Hpost Hlines Hk Hl2. split.
  - unfold make_file_line_lookup. rewrite fold_left_app. simpl.
    rewrite lookup_other_files by done.
    by rewrite lookup_file_table, lookup_insert_eq.
  - unfold file_table. fold (lines file). rewrite Hlines.
    by apply table_last.
Qed.

(** ** Paths below the working directory *)

Section Relpath.

Implicit Types (x s acc : string) (comps rs ps : list string).

Lemma plain_inv x :
  plain x = true ->
  free_of "/" x = true /\ x <> "" /\ x <> "." /\ x <> "..".
Proof.
  unfold plain. rewrite !andb_true_iff, !negb_true_iff, !String.eqb_neq.
  tauto.
Qed.

Lemma split_all_free sep x :
  free_of sep x = true -> Py.split_all sep x = [x].
Proof.
  induction x as [|c x IH]; simpl; [done|].
  intros [Hc Hx]%andb_true_iff. apply negb_true_iff in Hc.
  by rewrite Hc, IH.
Qed.

Lemma split_all_cut sep x s :
  free_of sep x = true ->
  Py.split_all sep (x +:+ String sep s) = x :: Py.split_all sep s.
Proof.
  induction x as [|c x IH]; intros H.
  - rewrite append_nil. simpl. by rewrite Ascii.eqb_refl.
  - simpl in H. apply andb_true_iff in H as [Hc Hx].
    apply negb_true_iff in Hc. rewrite append_cons. simpl.
    by rewrite Hc, IH.
Qed.

Lemma split_all_join comps :
  Forall (fun c => plain c = true) comps -> comps <> [] ->
  Py.split_all "/" (Py.join "/" comps) = comps.
Proof.
  induction 1 as [|x comps Hx Hcomps IH]; [done|]. intros _.
  apply plain_inv in Hx as (Hx & _).
  destruct comps as [|y comps]; [by apply split_all_free|].
  rewrite join_cons.
  change ("/" +:+ Py.join "/" (y :: comps))
    with (String "/" (Py.join "/" (y :: comps))).
  rewrite split_all_cut by done. by rewrite IH.
Qed.

Lemma norm_plain slashes comps (acc : list string) :
  Forall (fun c => plain c = true) comps ->
  fold_left (Posixpath.norm_step slashes) comps acc = acc ++ comps.
Proof.
  intros H. revert acc. induction H as [|x comps Hx _ IH]; intros acc; simpl.
  - by rewrite app_nil_r.
  - rewrite IH.
    apply plain_inv in Hx as (_ & H1 & H2 & H3). unfold Posixpath.norm_step.
    apply String.eqb_neq in H1, H2, H3. rewrite H1, H2, H3. simpl.
    by rewrite <- app_assoc.
Qed.

Lemma filter_plain comps :
  Forall (fun c => plain c = true) comps ->
  List.filter Posixpath.nonempty comps = comps.
Proof.
  induction 1 as [|x comps Hx _ IH]; simpl; [done|].
  apply plain_inv in Hx as (_ & H1 & _). unfold Posixpath.nonempty at 1.
  apply String.eqb_neq in H1. by rewrite H1, IH.
Qed.

Lemma join_not_slash comps :
  Forall (fun c => plain c = true) comps ->
  Py.startswith "/" (Py.join "/" comps) = false.
Proof.
  destruct 1 as [|x comps Hx _]; [done|].
  apply plain_inv in Hx as (Hf & Hne & _).
  destruct x as [|c x]; [done|]. rewrite join_push.
  cbn [free_of] in Hf. cbn [Py.startswith].
  apply andb_true_iff in Hf as [Hc _]. apply negb_true_iff in Hc.
  by rewrite Ascii.eqb_sym, Hc.
Qed.

(** An absolute path made of plain components is its own normal form, and
    splits back into its components. *)
Lemma abspath_plain os comps :
  Forall (fun c => plain c = true) comps ->
  List.filter Posixpath.nonempty
    (Py.split_all "/" (Posixpath.abspath os ("/" +:+ Py.join "/" comps)))
  = comps.
Proof.
  intros H. pose proof (join_not_slash comps H) as Hs.
  change ("/" +:+ Py.join "/" comps) with (String "/" (Py.join "/" comps)).
  unfold Posixpath.abspath, Posixpath.isabs, Posixpath.sep. simpl Py.startswith.
  unfold Posixpath.normpath. simpl String.eqb.
  assert (Posixpath.initial_slashes (String "/" (Py.join "/" comps)) = 1%nat)
    as ->.
  { unfold Posixpath.initial_slashes, Posixpath.sep.
    destruct (Py.join "/" comps) as [|c s]; [done|].
    cbn [Py.startswith] in *. rewrite Ascii.eqb_refl.
    destruct (Ascii.eqb "/" c); [done|]. done. }
  simpl Py.split_all. destruct comps as [|x comps].
  - done.
  - rewrite split_all_join by done.
    change (Posixpath.norm_step 1 [] "") with (@nil string).
    rewrite norm_plain by done. rewrite app_nil_l, append_nil.
    unfold Posixpath.sep. rewrite split_all_join by done.
    change (List.filter Posixpath.nonempty (x :: comps) = x :: comps).
    by apply filter_plain.
Qed.

Lemma commonprefix_app rs ps : Posixpath.commonprefix rs (rs ++ ps) = rs.
Proof.
  induction rs as [|r rs IH]; simpl; [by destruct ps|].
  by rewrite String.eqb_refl, IH.
Qed.

Lemma endswith_sep_append acc c s :
  Posixpath.endswith_sep (acc +:+ String c s)
  = Posixpath.endswith_sep (String c s).
Proof.
  induction acc as [|a acc IH]; [done|]. rewrite append_cons.
  change (Posixpath.endswith_sep (String a (acc +:+ String c s)))
    with (match acc +:+ String c s with
          | EmptyString => Ascii.eqb a "/"
          | _ => Posixpath.endswith_sep (acc +:+ String c s)
          end).
  rewrite <- IH. by destruct acc.
Qed.

Lemma endswith_sep_free x :
  free_of "/" x = true -> Posixpath.endswith_sep x = false.
Proof.
  induction x as [|c x IH]; [done|]. cbn [free_of].
  intros [Hc Hx]%andb_true_iff. apply negb_true_iff in Hc.
  destruct x; [done | by apply IH].
Qed.

Lemma join2_plain acc b :
  acc <> "" -> Posixpath.endswith_sep acc = false -> plain b = true ->
  Posixpath.join2 acc b = acc +:+ "/" +:+ b.
Proof.
  intros Hacc Hend (Hf & Hne & _)%plain_inv.
  unfold Posixpath.join2, Posixpath.sep.
  destruct b as [|c b]; [done|]. cbn [free_of] in Hf.
  apply andb_true_iff in Hf as [Hc _]. apply negb_true_iff in Hc.
  assert (Py.startswith "/" (String c b) = false) as ->
    by (cbn [Py.startswith]; by rewrite Ascii.eqb_sym, Hc).
  apply String.eqb_neq in Hacc. by rewrite Hacc, Hend.
Qed.

Lemma fold_join2 ps acc :
  Forall (fun c => plain c = true) ps ->
  acc <> "" -> Posixpath.endswith_sep acc = false ->
  fold_left Posixpath.join2 ps acc
  = match ps with [] => acc | _ => acc +:+ "/" +:+ Py.join "/" ps end.
Proof.
  intros H. revert acc. induction H as [|b ps Hb Hps IH]; intros acc Ha He.
  - done.
  - simpl fold_left. rewrite join2_plain by done.
    pose proof (plain_inv b Hb) as (Hf & Hne & _).
    rewrite IH.
    + destruct ps as [|b' ps]; [done|].
      rewrite (join_cons "/" b b' ps). by rewrite !append_assoc.
    + by destruct acc.
    + destruct b as [|c b]; [done|].
      change ("/" +:+ String c b) with (String "/" (String c b)).
      rewrite (endswith_sep_append acc "/" (String c b)).
      change (Posixpath.endswith_sep (String "/" (String c b)))
        with (Posixpath.endswith_sep (String c b)).
      by apply endswith_sep_free.
Qed.

End Relpath.

(** X17.  For a working directory and a file below it, both written as
    absolute paths of plain components, the root-relative path is the part
    of the file's path below the directory, in any process. *)
Theorem relpath_below_root (os : Process) (rs ps : list string) :
  Forall (fun c => plain c = true) rs ->
  Forall (fun c => plain c = true) ps ->
  ps <> [] ->
  Posixpath.relpath os ("/" +:+ Py.join "/" (rs ++ ps))
                       ("/" +:+ Py.join "/" rs)
  = inr (Py.join "/" ps).
Proof.
  intros Hrs Hps Hne. unfold Posixpath.relpath.
  change (String.eqb ("/" +:+ Py.join "/" (rs ++ ps)) "") with false.
  cbv iota. rewrite !abspath_plain by (done || by apply Forall_app).
  rewrite commonprefix_app, Nat.sub_diag, skipn_app, Nat.sub_diag.
  rewrite skipn_all.
  destruct ps as [|a p]; [done|].
  change (inr (fold_left Posixpath.join2 p a)
          = (inr (Py.join "/" (a :: p)) : Result string)).
  apply Forall_cons in Hps as [Ha Hp].
  pose proof (plain_inv a Ha) as (Hf & Hna & _).
  rewrite fold_join2; [by destruct p | done | done | by apply endswith_sep_free].
Qed.

(** ** The grouping as a refinement *)

(** X18.  For a file whose added lines carry a line number, in any order,
    the grouping of the enumerated line numbers by index minus value gives
    the ranges of the runs of consecutive numbers read off the list
    directly. *)
Theorem grouping_is_runs (file : PatchedFile) :
  (forall line, In line (lines file) -> is_added line = true ->
                target_line_no line <> None) ->
  file_ranges file = inr (runs (added_numbers file)).
Proof.
  intros Hnum. unfold file_ranges, added_lines.
  rewrite mapM_operand.
  - simpl. by rewrite groupby_runs.
  - intros l Hl. apply filter_In in Hl as [Hl Ha]. by apply Hnum.
Qed.

(** ** The further theorems at the sample data *)


Lemma review_of_parts_witness :
  make_review
    [sample_record; "    int x = 0;"; "        ^"; sample_record]
    sample_lookup sample_os
  = inr (review_with
           [sample_comment;
            {| path := "foo.cpp";
               body := "warning: unused variable `x`" +:+ nl +:+ nl +:+
                       "```cpp" +:+ nl +:+ nl +:+ "```" +:+ nl;
               position := 7 |}]).
Proof.
  etransitivity;
    [exact (review_of_parts sample_os sample_lookup
              [sample_record; "    int x = 0;"; "        ^"] []
              sample_record eq_refl)
    | by vm_compute].
Defined.

Lemma one_comment_per_record_witness :
  length (comments (review_with [sample_comment])) = 1%nat.
Proof.
  apply (one_comment_per_record sample_os sample_lookup
           ["warning: no path here"; sample_record; "    int x = 0;";
            "        ^"]
           (review_with [sample_comment])).
  by vm_compute.
Defined.

Lemma comments_anchored_witness :
  Forall (anchored sample_diff) (comments sample_submitted).
Proof.
  apply (comments_anchored sample_diff
           ["/abs/path/foo.cpp:15:3: warning: unused variable 'y'"]
           sample_os sample_submitted).
  by vm_compute.
Defined.

Lemma record_shape_witness :
  exists full_path source_line column warning rel_path n pos,
    sample_record
    = full_path +:+ ":" +:+ source_line +:+ ":" +:+ column
      +:+ ":" +:+ warning /\
    free_of ":" full_path = true /\ free_of ":" source_line = true /\
    free_of ":" column = true /\
    Posixpath.relpath sample_os full_path "/abs/path" = inr rel_path /\
    Py.int (int_max_str_digits sample_os) source_line = Some n /\
    sample_lookup !! rel_path ≫= (fun table => table !! Some n) = Some pos /\
    [sample_comment]
    = [] ++ [{| path := rel_path;
                body := comment_body warning
                          (collect_body full_path rel_path
                             ["    int x = 0;"; "        ^"] "");
                position := pos |}].
Proof.
  apply (record_shape sample_os "/abs/path" sample_lookup sample_record
           ["    int x = 0;"; "        ^"] [] [sample_comment]);
    by vm_compute.
Defined.

Lemma main_submits_anchored_witness :
  comments sample_submitted <> [] /\
  Forall (anchored sample_diff) (comments sample_submitted) /\
  (forall rc p, In rc (comments sample_submitted) ->
                In p (get_review_comments (review_side sample_remote)) ->
                triple rc <> posted_triple p).
Proof.
  apply (main_submits_anchored sample_fnmatch sample_clang_tidy sample_diff
           ["*"] (Some [""]) sample_os sample_remote
           [SetOutput 1; PrintReview sample_submitted;
            CreateReview sample_submitted]
           sample_submitted sample_submitted).
  - by vm_compute.
  - simpl. auto.
Defined.

Lemma main_all_clean_witness :
  [CreateIssueComment BODY] = post_lgtm_comment sample_remote /\
  exists line_ranges warnings,
    get_line_ranges sample_diff = inr line_ranges /\
    quiet_clang_tidy line_ranges
      (Py.join " " (select_files sample_fnmatch ["*"] (Some [""])
                      (map filename sample_diff)))
    = Some warnings /\
    List.filter is_record warnings = [].
Proof.
  apply (main_all_clean sample_fnmatch quiet_clang_tidy sample_diff
           ["*"] (Some [""]) sample_os sample_remote
           [CreateIssueComment BODY]).
  by vm_compute.
Defined.

Lemma basedir_proper_prefix_witness :
  Py.startswith "/home/pro" "/home/proj" = true /\
  ("/home/proj" <> "" ->
   (String.length "/home/pro" < String.length "/home/proj")%nat) /\
  ("." = "." -> endswith "." "/home/proj" = false ->
   "/home/pro" = drop_last 1 "/home/proj").
Proof.
  apply (basedir_proper_prefix "/home/proj" "." "/home/pro").
  by vm_compute.
Defined.

(** A diff that is not well formed: the path foo.cpp twice, and line
    numbers out of order in the second file. *)
Lemma line_filter_covers_witness :
  exists out,
    get_line_ranges
      [foo_cpp;
       {| target_file := "b/foo.cpp";
          hunks := [[line_at Added (Some 30) 6; line_at Added (Some 3) 7]] |}]
    = inr out /\
    List.NoDup (map name out) /\
    Forall (fun e => ranges e <> []) out /\
    forall nm n,
      in_filter out nm n
      <-> exists file,
            In file
              [foo_cpp;
               {| target_file := "b/foo.cpp";
                  hunks := [[line_at Added (Some 30) 6;
                             line_at Added (Some 3) 7]] |}]
            /\ filename file = nm /\ In n (added_numbers file).
Proof.
  apply (line_filter_covers
           [foo_cpp;
            {| target_file := "b/foo.cpp";
               hunks := [[line_at Added (Some 30) 6;
                          line_at Added (Some 3) 7]] |}]).
  intros file line [<-|[<-|[]]] Hl; simpl in Hl;
    repeat (destruct Hl as [<-|Hl]; [done|]); done.
Defined.

Lemma last_write_wins_witness :
  make_file_line_lookup
    [foo_cpp;
     {| target_file := "b/foo.cpp";
        hunks := [[line_at Added (Some 3) 6; line_at Context (Some 3) 7]] |}]
    !! "foo.cpp"
  = Some ({[ Some 3 := 2 ]} : LineTable).
Proof.
  destruct (last_write_wins
              [foo_cpp;
               {| target_file := "b/foo.cpp";
                  hunks := [[line_at Added (Some 3) 6;
                             line_at Context (Some 3) 7]] |}]
              [foo_cpp] []
              {| target_file := "b/foo.cpp";
                 hunks := [[line_at Added (Some 3) 6;
                            line_at Context (Some 3) 7]] |}
              [line_at Added (Some 3) 6] [] (line_at Context (Some 3) 7))
    as [H _]; [done | by intros [] | done | done | by intros ? [] |].
  etransitivity; [exact H | by vm_compute].
Defined.

Lemma relpath_below_root_witness :
  Posixpath.relpath sample_os "/abs/path/src/foo.cpp" "/abs/path"
  = inr "src/foo.cpp".
Proof.
  apply (relpath_below_root sample_os ["abs"; "path"] ["src"; "foo.cpp"]);
    [repeat constructor | repeat constructor | done].
Defined.

Lemma grouping_is_runs_witness :
  file_ranges foo_cpp = inr [(10, 12); (15, 16); (20, 20)].
Proof.
  apply (grouping_is_runs foo_cpp).
  intros line Hl. simpl in Hl.
  repeat (destruct Hl as [<-|Hl]; [done|]). done.
Defined.

(** ** Duplicates within a review *)

Section Records.

Variables (os : Process) (lookup : LineLookup).

(** What one turn of the loop does on a record whose fields are known. *)
Lemma review_line_parsed line rest acc full_path source_line column warning
  rel_path n :
  is_record line = true ->
  Py.split ":" 3 line = [full_path; source_line; column; warning] ->
  Posixpath.relpath os full_path (cwd os) = inr rel_path ->
  Py.int (int_max_str_digits os) source_line = Some n ->
  review_line os (cwd os) lookup line rest acc
  = match lookup !! rel_path with
    | None => inl (KeyError_path rel_path)
    | Some table =>
        match table !! Some n with
        | None => inl (KeyError_line n)
        | Some pos =>
            inr (acc ++ [{| path := rel_path;
                            body := comment_body warning
                                      (collect_body full_path rel_path rest "");
                            position := pos |}])
        end
    end.
Proof.
  unfold is_record, review_line. intros Hrec Hsplit Hrel Hint.
  apply andb_true_iff in Hrec as [Hc Hs]. apply negb_true_iff in Hs.
  rewrite Hc, Hs, Hsplit, Hrel. cbn [bind]. unfold getitem_path.
  destruct (lookup !! rel_path) as [t|]; [|done]. cbn [bind].
  unfold to_int. rewrite Hint. cbn [bind]. unfold getitem_line.
  by destruct (t !! Some n).
Qed.

Lemma collect_body_lines full_path rel_path rest body :
  collect_body full_path rel_path rest body
  = collect_body full_path rel_path (body_lines rest) body.
Proof.
  revert body. induction rest as [|l rest IH]; intros body; simpl; [done|].
  destruct (Py.contains "warning" l) eqn:E; simpl; [done|].
  by rewrite E, IH.
Qed.

Lemma is_record_marker line :
  is_record line = true -> Py.contains "warning" line = true.
Proof. unfold is_record. by intros [? _]%andb_true_iff. Qed.

End Records.

(** C10.  [make_review] does not remove duplicates.  When a stream holds
    two records with the same path, the same source line, the same message
    and the same body lines, anywhere in the stream, a review that is
    returned holds the same comment twice.  The filter of [post_review]
    judges every comment on its own, by the posted comments alone: it keeps
    both copies, or drops both when a posted comment has their triple. *)
Theorem no_dedup_within_review (os : Process) (lookup : LineLookup)
  (pre mid post : list string) (r1 r2 : string)
  (full_path sl1 sl2 col1 col2 warning rel_path : string) (n : Z)
  (review : Review) :
  is_record r1 = true -> is_record r2 = true ->
  Py.split ":" 3 r1 = [full_path; sl1; col1; warning] ->
  Py.split ":" 3 r2 = [full_path; sl2; col2; warning] ->
  Posixpath.relpath os full_path (cwd os) = inr rel_path ->
  Py.int (int_max_str_digits os) sl1 = Some n ->
  Py.int (int_max_str_digits os) sl2 = Some n ->
  body_lines (mid ++ r2 :: post) = body_lines post ->
  make_review (pre ++ r1 :: mid ++ r2 :: post) lookup os = inr review ->
  exists c before between after,
    comments review = before ++ c :: between ++ c :: after /\
    path c = rel_path /\
    lookup !! rel_path ≫= (fun table => table !! Some n) = Some (position c) /\
    body c = comment_body warning (collect_body full_path rel_path post "") /\
    (forall posted,
       (forall p, In p posted -> triple c <> posted_triple p) ->
       exists before' between' after',
         comments (filter_review posted review)
         = before' ++ c :: between' ++ c :: after') /\
    (forall posted p,
       In p posted -> triple c = posted_triple p ->
       ~ In c (comments (filter_review posted review))) /\
    (forall posted cs1 cs2,
       comments (filter_review posted (review_with (cs1 ++ cs2)))
       = comments (filter_review posted (review_with cs1))
         ++ comments (filter_review posted (review_with cs2))).
Proof.
  intros Hr1 Hr2 Hs1 Hs2 Hrel Hn1 Hn2 Hbody Hrev.
  pose proof (is_record_marker r1 Hr1) as Hm1.
  pose proof (is_record_marker r2 Hr2) as Hm2.
  rewrite make_review_marker in Hrev by done.
  destruct (review_loop os (cwd os) lookup pre []) as [|before]; [done|].
  cbn [bind] in Hrev. rewrite review_loop_cons in Hrev.
  rewrite (review_line_parsed os lookup r1 _ before _ _ _ _ _ n Hr1 Hs1 Hrel Hn1)
    in Hrev.
  rewrite (collect_body_lines _ _ (mid ++ r2 :: post)), Hbody,
    <- collect_body_lines in Hrev.
  destruct (lookup !! rel_path) as [t|] eqn:Et; [|done].
  destruct (t !! Some n) as [pos|] eqn:Ep; [|done].
  cbn [bind] in Hrev. rewrite review_loop_marker in Hrev by done.
  rewrite review_loop_acc in Hrev.
  destruct (review_loop os (cwd os) lookup mid []) as [|between]; [done|].
  cbn [bind] in Hrev. rewrite review_loop_cons in Hrev.
  rewrite (review_line_parsed os lookup r2 _ _ _ _ _ _ _ n Hr2 Hs2 Hrel Hn2)
    in Hrev.
  rewrite Et, Ep in Hrev. cbn [bind] in Hrev.
  rewrite review_loop_acc in Hrev.
  destruct (review_loop os (cwd os) lookup post []) as [|after]; [done|].
  cbn [bind] in Hrev. injection Hrev as <-.
  set (c := {| path := rel_path;
               body := comment_body warning
                         (collect_body full_path rel_path post "");
               position := pos |}).
  assert (Hcs : comments
                  (review_with
                     ((((before ++ [c]) ++ between) ++ [c]) ++ after))
                = before ++ c :: between ++ c :: after).
  { simpl. by rewrite <- !app_assoc. }
  exists c, before, between, after.
  split; [exact Hcs|]. split; [done|]. split; [done|]. split; [done|].
  split; [|split].
  - intros posted Hfresh.
    assert (existsb (same_comment c) posted = false) as Hc.
    { destruct (existsb (same_comment c) posted) eqn:E; [|done].
      apply matched_iff in E as (p & Hp & Ht). by destruct (Hfresh p Hp). }
    rewrite filter_review_comments, Hcs.
    rewrite List.filter_app. cbn [List.filter]. rewrite Hc. cbn [negb].
    rewrite List.filter_app. cbn [List.filter]. rewrite Hc. cbn [negb].
    eauto.
  - intros posted p Hp Ht Hin.
    apply filter_review_kept in Hin as [_ Hfresh]. by destruct (Hfresh p Hp).
  - intros posted cs1 cs2. rewrite !filter_review_comments. simpl.
    apply List.filter_app.
Qed.

(** ** What the three components depend on *)

Section Views.








End Views.


(** ** The body of a comment *)

Section Body.

Implicit Types (a b m e r s t w : string) (c : ascii).

Lemma free_of_append c a b :
  free_of c (a +:+ b) = free_of c a && free_of c b.
Proof.
  induction a as [|x a IH]; [done|]. rewrite append_cons. cbn [free_of].
  by rewrite IH, andb_assoc.
Qed.

Lemma blank_space c : Textwrap.blank c = true -> Py.isspace c = true.
Proof.
  unfold Textwrap.blank. intros [H|H]%orb_true_iff;
    apply Ascii.eqb_eq in H; by subst c.
Qed.

Lemma blank_not_newline c : Textwrap.blank c = true -> Ascii.eqb c "010" = false.
Proof.
  unfold Textwrap.blank. intros [H|H]%orb_true_iff;
    apply Ascii.eqb_eq in H; by subst c.
Qed.

Lemma all_blank_free m : Textwrap.all_blank m = true -> free_of "010" m = true.
Proof.
  induction m as [|c m IH]; [done|]. cbn [Textwrap.all_blank free_of].
  intros [Hc Hm]%andb_true_iff. by rewrite (blank_not_newline c), IH.
Qed.

Lemma all_blank_space m : Textwrap.all_blank m = true -> all_space m = true.
Proof.
  induction m as [|c m IH]; [done|]. cbn [Textwrap.all_blank all_space].
  intros [Hc Hm]%andb_true_iff. by rewrite (blank_space c), IH.
Qed.

Lemma all_blank_append a b :
  Textwrap.all_blank (a +:+ b) = Textwrap.all_blank a && Textwrap.all_blank b.
Proof.
  induction a as [|x a IH]; [done|]. rewrite append_cons.
  cbn [Textwrap.all_blank]. by rewrite IH, andb_assoc.
Qed.

Lemma all_blank_solid m c s :
  Textwrap.blank c = false -> Textwrap.all_blank (m +:+ String c s) = false.
Proof.
  intros Hc. induction m as [|x m IH].
  - rewrite append_nil. cbn [Textwrap.all_blank]. by rewrite Hc.
  - rewrite append_cons. cbn [Textwrap.all_blank]. rewrite IH.
    apply andb_false_r.
Qed.

Lemma indent_of_solid m c s :
  Textwrap.all_blank m = true -> Textwrap.blank c = false ->
  Textwrap.indent_of (m +:+ String c s) = m.
Proof.
  intros Hm Hc. induction m as [|x m IH].
  - rewrite append_nil. cbn [Textwrap.indent_of]. by rewrite Hc.
  - cbn [Textwrap.all_blank] in Hm. apply andb_true_iff in Hm as [Hx Hm].
    rewrite append_cons. cbn [Textwrap.indent_of]. by rewrite Hx, IH.
Qed.

Lemma append_solid_not_nil m c s : String.eqb (m +:+ String c s) "" = false.
Proof. by destruct m. Qed.

Lemma startswith_append m a b :
  Py.startswith (m +:+ a) (m +:+ b) = Py.startswith a b.
Proof.
  induction m as [|x m IH]; [done|]. rewrite !append_cons.
  change (Py.startswith (String x (m +:+ a)) (String x (m +:+ b)))
    with (Ascii.eqb x x && Py.startswith (m +:+ a) (m +:+ b)).
  by rewrite Ascii.eqb_refl, IH.
Qed.

Lemma startswith_self m b : Py.startswith m (m +:+ b) = true.
Proof.
  rewrite <- (append_nil_r m) at 1. rewrite startswith_append. by destruct b.
Qed.

Lemma cut_append m a b :
  Textwrap.cut_at_mismatch (m +:+ a) (m +:+ b)
  = m +:+ Textwrap.cut_at_mismatch a b.
Proof.
  induction m as [|x m IH]; [done|]. rewrite !append_cons.
  cbn [Textwrap.cut_at_mismatch]. by rewrite Ascii.eqb_refl, IH.
Qed.

(** The margin of two lines whose indentations share [m] and nothing
    more. *)
Lemma margin_of_two m e1 e2 :
  heads_differ e1 e2 = true ->
  fold_left Textwrap.margin_step [m +:+ e1; m +:+ e2] None = Some m.
Proof.
  intros H. cbn [fold_left Textwrap.margin_step].
  rewrite !startswith_append, cut_append.
  destruct e1 as [|x e1]; [by rewrite append_nil_r|].
  destruct e2 as [|y e2]; [by rewrite append_nil_r|].
  cbn [heads_differ] in H. apply negb_true_iff in H.
  cbn [Py.startswith Textwrap.cut_at_mismatch].
  rewrite H, (Ascii.eqb_sym y x), H. cbn [andb]. by rewrite append_nil_r.
Qed.

Lemma split_two_lines a b :
  free_of "010" a = true -> free_of "010" b = true ->
  Py.split_all "010" (nl +:+ a +:+ nl +:+ b) = [""; a; b].
Proof.
  intros Ha Hb. unfold nl.
  change (String "010" "" +:+ a +:+ String "010" "" +:+ b)
    with ("" +:+ String "010" (a +:+ String "010" b)).
  rewrite split_all_cut by done. rewrite split_all_cut by done.
  by rewrite split_all_free.
Qed.

(** De-denting two lines removes the indentation they share. *)
Lemma dedent_two_lines m e1 e2 c1 s1 c2 s2 :
  Textwrap.all_blank m = true ->
  Textwrap.all_blank e1 = true -> Textwrap.all_blank e2 = true ->
  heads_differ e1 e2 = true ->
  Textwrap.blank c1 = false -> Textwrap.blank c2 = false ->
  free_of "010" (String c1 s1) = true -> free_of "010" (String c2 s2) = true ->
  Textwrap.dedent (nl +:+ (m +:+ e1 +:+ String c1 s1)
                      +:+ nl +:+ (m +:+ e2 +:+ String c2 s2))
  = nl +:+ (e1 +:+ String c1 s1) +:+ nl +:+ (e2 +:+ String c2 s2).
Proof.
  intros Hm He1 He2 Hd Hc1 Hc2 Hf1 Hf2. unfold Textwrap.dedent.
  rewrite split_two_lines
    by (rewrite !free_of_append, !all_blank_free by done; done).
  cbn [map]. change (Textwrap.all_blank "") with true. cbv iota.
  rewrite <- !append_assoc.
  rewrite !all_blank_solid by done.
  cbn [List.filter]. change (negb (String.eqb "" "")) with false. cbv iota.
  rewrite !append_solid_not_nil. cbn [negb map].
  rewrite !indent_of_solid by (done || by rewrite all_blank_append, Hm).
  rewrite margin_of_two by done.
  destruct m as [|x m].
  - rewrite !join_cons. cbn [Py.join]. unfold nl.
    by rewrite !append_assoc, !append_nil.
  - cbn [map]. change (Py.startswith (String x m) "") with false. cbv iota.
    rewrite !append_assoc, !startswith_self, !drop_append.
    rewrite !join_cons. cbn [Py.join]. unfold nl.
    by rewrite ?append_assoc, !append_nil.
Qed.

End Body.

Section Trim.

Implicit Types (a b t w s : string) (c : ascii).

Lemma lstrip_spaces w s :
  all_space w = true -> Py.lstrip (w +:+ s) = Py.lstrip s.
Proof.
  induction w as [|c w IH]; [done|]. cbn [all_space].
  intros [Hc Hw]%andb_true_iff. rewrite append_cons. cbn [Py.lstrip].
  rewrite Hc. by apply IH.
Qed.

Lemma rstrip_spaces w : all_space w = true -> Py.rstrip w = "".
Proof.
  induction w as [|c w IH]; [done|]. cbn [all_space].
  intros [Hc Hw]%andb_true_iff. cbn [Py.rstrip]. by rewrite IH, Hc.
Qed.

Lemma rstrip_solid t w :
  ends_solid t = true -> all_space w = true -> Py.rstrip (t +:+ w) = t.
Proof.
  intros Ht Hw. induction t as [|c t IH]; [done|].
  rewrite append_cons. cbn [Py.rstrip]. destruct t as [|c' t].
  - rewrite append_nil, rstrip_spaces by done.
    cbn [ends_solid] in Ht. apply negb_true_iff in Ht. by rewrite Ht.
  - rewrite IH by done. done.
Qed.

Lemma rstrip_append a b :
  Py.rstrip b <> "" -> Py.rstrip (a +:+ b) = a +:+ Py.rstrip b.
Proof.
  intros Hb. induction a as [|c a IH]; [done|].
  rewrite !append_cons. cbn [Py.rstrip]. rewrite IH.
  destruct (a +:+ Py.rstrip b) eqn:E; [|done].
  destruct a; [|done]. by rewrite append_nil in E.
Qed.

(** Trimming the two de-dented lines removes the line break in front, the
    indentation left on the first line and the white space that ends the
    second. *)
Lemma strip_two_lines e1 e2 c1 s1 t2 w2 :
  Textwrap.all_blank e1 = true -> Py.isspace c1 = false ->
  ends_solid t2 = true -> all_space w2 = true ->
  Py.strip (nl +:+ (e1 +:+ String c1 s1) +:+ nl +:+ (e2 +:+ t2 +:+ w2))
  = String c1 s1 +:+ nl +:+ e2 +:+ t2.
Proof.
  intros He1 Hc1 Ht2 Hw2. unfold Py.strip, nl.
  rewrite append_cons, append_nil. cbn [Py.lstrip].
  change (Py.isspace "010") with true. cbv iota.
  rewrite append_assoc, lstrip_spaces by by apply all_blank_space.
  rewrite append_cons. cbn [Py.lstrip]. rewrite Hc1.
  rewrite <- append_cons.
  assert (String c1 s1 +:+ String "010" "" +:+ e2 +:+ t2 +:+ w2
          = (String c1 s1 +:+ String "010" "" +:+ e2) +:+ (t2 +:+ w2)) as ->
    by (by rewrite !append_assoc).
  rewrite rstrip_append; rewrite rstrip_solid by done.
  - by rewrite !append_assoc.
  - by destruct t2.
Qed.

End Trim.

(** C3.  The record "/abs/path/foo.cpp:42:7: warning: unused variable 'x'"
    followed by two indented context lines and then by another marker line
    gives one comment, placed before the comments of the rest of the stream.
    Its message has the quoted name in backticks.  Its body holds both
    context lines inside a fenced code block, with the absolute path
    replaced by the root-relative one, de-dented and trimmed: of the lines
    [m e1 t1] and [m e2 t2 w2], with [m] the indentation they share, the
    block holds [t1] and, on the next line, [e2 t2], without the white space
    [w2] that ends the second line. *)
Theorem warning_parsing_boundary (os : Process) (lookup : LineLookup)
  (rel_path : string) (pos : Z) (line1 line2 m e1 e2 t1 t2 w2 : string)
  (marker : string) (rest : list string) (after : Review) :
  Posixpath.relpath os "/abs/path/foo.cpp" (cwd os) = inr rel_path ->
  lookup !! rel_path ≫= (fun table => table !! Some 42) = Some pos ->
  Py.contains "warning" line1 = false ->
  Py.contains "warning" line2 = false ->
  Py.replace "/abs/path/foo.cpp" rel_path line1 = m +:+ e1 +:+ t1 ->
  Py.replace "/abs/path/foo.cpp" rel_path line2 = m +:+ e2 +:+ t2 +:+ w2 ->
  Textwrap.all_blank m = true ->
  Textwrap.all_blank e1 = true -> Textwrap.all_blank e2 = true ->
  heads_differ e1 e2 = true ->
  starts_solid t1 = true -> starts_solid t2 = true -> ends_solid t2 = true ->
  all_space w2 = true ->
  free_of "010" t1 = true -> free_of "010" t2 = true ->
  free_of "010" w2 = true ->
  Py.contains "warning" marker = true ->
  make_review (marker :: rest) lookup os = inr after ->
  make_review
    ("/abs/path/foo.cpp:42:7: warning: unused variable 'x'"
       :: line1 :: line2 :: marker :: rest)
    lookup os
  = inr (review_with
           ({| path := rel_path;
               body := "warning: unused variable `x`" +:+ nl +:+ nl +:+
                       "```cpp" +:+ nl +:+
                       (t1 +:+ nl +:+ e2 +:+ t2) +:+ nl +:+
                       "```" +:+ nl;
               position := pos |} :: comments after)).
Proof.
  intros Hrel Hpos Hl1 Hl2 Hr1 Hr2 Hm He1 He2 Hd Hs1 Hs2 Hend Hw Hf1 Hf2 Hfw
    Hmark Hafter.
  set (record := "/abs/path/foo.cpp:42:7: warning: unused variable 'x'").
  change (record :: line1 :: line2 :: marker :: rest)
    with ([record; line1; line2] ++ marker :: rest).
  rewrite make_review_marker by done.
  rewrite make_review_loop in Hafter.
  destruct (review_loop os (cwd os) lookup (marker :: rest) []) as [|cs] eqn:E;
    [done|].
  injection Hafter as <-.
  rewrite review_loop_cons. unfold review_line at 1.
  replace (Py.contains "warning" record) with true by (by vm_compute).
  replace (Py.startswith "warning" record) with false by (by vm_compute).
  replace (Py.split ":" 3 record)
    with ["/abs/path/foo.cpp"; "42"; "7"; " warning: unused variable 'x'"]
    by (by vm_compute).
  rewrite Hrel. cbn [bind].
  unfold getitem_path. destruct (lookup !! rel_path) as [t|]; [|done].
  cbn [bind]. replace (to_int os "42") with (inr 42 : Result Z) by (by vm_compute).
  cbn [bind]. unfold getitem_line. simpl in Hpos. rewrite Hpos. cbn [bind].
  rewrite (review_loop_no_marker _ _ _ [line1; line2])
    by (by repeat constructor).
  cbn [bind]. rewrite review_loop_acc, E. cbn [bind app comments review_with].
  do 4 f_equal.
  (* the text of the comment *)
  cbn [collect_body]. rewrite Hl1, Hl2, Hr1, Hr2. unfold comment_body.
  replace (Py.replace "'" "`" (Py.strip " warning: unused variable 'x'"))
    with "warning: unused variable `x`" by (by vm_compute).
  do 4 f_equal.
  destruct t1 as [|c1 s1]; [done|]. destruct t2 as [|c2 s2]; [done|].
  cbn [starts_solid] in Hs1, Hs2. apply negb_true_iff in Hs1, Hs2.
  rewrite append_nil.
  assert ((nl +:+ m +:+ e1 +:+ String c1 s1)
            +:+ nl +:+ m +:+ e2 +:+ String c2 s2 +:+ w2
          = nl +:+ (m +:+ e1 +:+ String c1 s1)
               +:+ nl +:+ (m +:+ e2 +:+ String c2 (s2 +:+ w2))) as ->
    by (by rewrite !append_assoc).
  rewrite dedent_two_lines; try done.
  - change (String c2 (s2 +:+ w2)) with (String c2 s2 +:+ w2).
    by rewrite strip_two_lines.
  - destruct (Textwrap.blank c1) eqn:Eb; [|done].
    apply blank_space in Eb. congruence.
  - destruct (Textwrap.blank c2) eqn:Eb; [|done].
    apply blank_space in Eb. congruence.
  - change (String c2 (s2 +:+ w2)) with (String c2 s2 +:+ w2).
    by rewrite free_of_append, Hf2, Hfw.
Qed.

(** ** The revised theorems at the sample data *)

Lemma warning_parsing_boundary_witness :
  make_review
    [sample_record;
     "  " +:+ String "009" "see /abs/path/foo.cpp";
     "   ^ ";
     "warning: no path here"]
    sample_lookup sample_os
  = inr (review_with
           [{| path := "foo.cpp";
               body := "warning: unused variable `x`" +:+ nl +:+ nl +:+
                       "```cpp" +:+ nl +:+
                       ("see foo.cpp" +:+ nl +:+ " " +:+ "^") +:+ nl +:+
                       "```" +:+ nl;
               position := 7 |}]).
Proof.
  apply (warning_parsing_boundary sample_os sample_lookup "foo.cpp" 7
           ("  " +:+ String "009" "see /abs/path/foo.cpp") "   ^ "
           "  " (String "009" "") " " "see foo.cpp" "^" " "
           "warning: no path here" [] (review_with []));
    by vm_compute.
Defined.

Lemma no_dedup_within_review_witness :
  exists c before between after,
    [sample_comment;
     {| path := "foo.cpp";
        body := "warning: other" +:+ nl +:+ nl +:+
                "```cpp" +:+ nl +:+ nl +:+ "```" +:+ nl;
        position := 9 |};
     sample_comment]
    = before ++ c :: between ++ c :: after /\
    path c = "foo.cpp" /\ position c = 7.
Proof.
  destruct (no_dedup_within_review sample_os sample_lookup
              ["warning: no path here"]
              ["    int x = 0;"; "        ^";
               "/abs/path/foo.cpp:50:3: warning: other"]
              ["    int x = 0;"; "        ^"]
              sample_record
              "/abs/path/foo.cpp:042:9: warning: unused variable 'x'"
              "/abs/path/foo.cpp" "42" "042" "7" "9"
              " warning: unused variable 'x'" "foo.cpp" 42
              (review_with
                 [sample_comment;
                  {| path := "foo.cpp";
                     body := "warning: other" +:+ nl +:+ nl +:+
                             "```cpp" +:+ nl +:+ nl +:+ "```" +:+ nl;
                     position := 9 |};
                  sample_comment]))
    as (c & before & between & after & Hcs & Hpath & Hpos & _);
    [by vm_compute..|].
  exists c, before, between, after. split; [exact Hcs|]. split; [done|].
  assert (Hp : Some 7 = Some (position c)) by exact Hpos. congruence.
Defined.


(** The limit on digits is read: a line field of 4301 digits is refused
    under the limit of 4300 and read as an integer, which the table does not
    hold, where there is no limit. *)
Lemma make_review_depends_on_digit_limit :
  make_review
    ["/abs/path/foo.cpp:" +:+ copies 4301 "1" +:+ ":7: warning: w"]
    sample_lookup sample_os
  = inl (ValueError_int (copies 4301 "1")) /\
  exists n,
    make_review
      ["/abs/path/foo.cpp:" +:+ copies 4301 "1" +:+ ":7: warning: w"]
      sample_lookup
      {| cwd := "/abs/path"; environ := []; int_max_str_digits := 0 |}
    = inl (KeyError_line n).
Proof.
  split; [by vm_compute|]. eexists. by vm_compute.
Qed.
